(** * crvouga/result: the four-variant outcome type and its combinators

    A shallow embedding of the library's TypeScript source (the module
    that follows the package manifest in [src/package.json]) and the
    verification of its specified properties.

    The library works on values of type [unknown], so the embedding
    starts from a model of JavaScript values.  Objects are plain data
    objects: a reference (their identity, compared by [===]) and the
    list of their data properties.  Accessor properties and proxies are
    outside the model.  The library never mutates an object, so an
    object value carries its properties with it.

    Library code runs in a small monad: an allocator hands out the
    references of newly created objects, a computation completes
    normally or abruptly (a JavaScript [throw]), and every call of a
    caller-supplied function is recorded in a call log. *)

From Stdlib Require Import String List ZArith Bool PrimFloat Lia.
Import ListNotations.
Local Open Scope string_scope.
Set Warnings "-register-all".

(** ** JavaScript values *)

Module JS.

Inductive jsval : Type :=
| VUndefined
| VNull
| VBool (b : bool)
| VNumber (x : float)
| VBigInt (z : Z)
| VString (s : string)
| VSymbol (ref : nat)
| VFunction (ref : nat)
| VObject (ref : nat) (props : list (string * jsval)).

(** The [typeof] operator. *)
Definition typeof (v : jsval) : string :=
  match v with
  | VUndefined => "undefined"
  | VNull => "object"
  | VBool _ => "boolean"
  | VNumber _ => "number"
  | VBigInt _ => "bigint"
  | VString _ => "string"
  | VSymbol _ => "symbol"
  | VFunction _ => "function"
  | VObject _ _ => "object"
  end.

(** [a === b] (IsStrictlyEqual): numbers compare as IEEE doubles, so
    [NaN] differs from itself and [+0] equals [-0]; objects, functions
    and symbols compare by reference. *)
Definition strict_eq (a b : jsval) : bool :=
  match a, b with
  | VUndefined, VUndefined => true
  | VNull, VNull => true
  | VBool x, VBool y => Bool.eqb x y
  | VNumber x, VNumber y => PrimFloat.eqb x y
  | VBigInt x, VBigInt y => Z.eqb x y
  | VString x, VString y => String.eqb x y
  | VSymbol x, VSymbol y => Nat.eqb x y
  | VFunction x, VFunction y => Nat.eqb x y
  | VObject x _, VObject y _ => Nat.eqb x y
  | _, _ => false
  end.

(** [v == null] (IsLooselyEqual against [null]): true for [null] and
    [undefined] only. *)
Definition loose_eq_null (v : jsval) : bool :=
  match v with
  | VUndefined | VNull => true
  | _ => false
  end.

(** ToBoolean: the host's truthiness. *)
Definition ToBoolean (v : jsval) : bool :=
  match v with
  | VUndefined | VNull => false
  | VBool b => b
  | VNumber x => negb (PrimFloat.eqb x 0%float || PrimFloat.is_nan x)
  | VBigInt z => negb (Z.eqb z 0)
  | VString s => negb (String.eqb s "")
  | VSymbol _ | VFunction _ | VObject _ _ => true
  end.

(** Property lookup in a property list. *)
Fixpoint lookup (k : string) (ps : list (string * jsval)) : option jsval :=
  match ps with
  | [] => None
  | (k', v) :: rest => if String.eqb k k' then Some v else lookup k rest
  end.

Definition NaN : float := PrimFloat.nan.

(** ** Completions, allocator and call log *)

Inductive completion (A : Type) : Type :=
| Normal (a : A)
| Abrupt (thrown : jsval).
Arguments Normal {A} a.
Arguments Abrupt {A} thrown.

(** One call of a caller-supplied function: the function's reference
    and the arguments it received. *)
Inductive event : Type :=
| Called (fn : nat) (args : list jsval).

(** The allocator is the next unused object reference. *)
Definition allocator := nat.

Definition M (A : Type) : Type :=
  allocator -> completion A * allocator * list event.

Definition ret {A} (a : A) : M A := fun h => (Normal a, h, []).

Definition throw {A} (e : jsval) : M A := fun h => (Abrupt e, h, []).

Definition bind {A B} (m : M A) (k : A -> M B) : M B :=
  fun h =>
    match m h with
    | (Normal a, h1, l1) =>
        match k a h1 with
        | (c, h2, l2) => (c, h2, (l1 ++ l2)%list)
        end
    | (Abrupt e, h1, l1) => (Abrupt e, h1, l1)
    end.

Notation "x <- m ;; k" := (bind m (fun x => k))
  (at level 61, m at next level, right associativity).

(** An object literal [{ ... }] allocates a new object. *)
Definition new_object (props : list (string * jsval)) : M jsval :=
  fun h => (Normal (VObject h props), S h, []).

(** [new Error(message)] and [new TypeError(message)]. *)
Definition new_error (name message : string) : M jsval :=
  new_object [("name", VString name); ("message", VString message)].

Definition throw_new_Error {A} (message : string) : M A :=
  e <- new_error "Error" message ;; throw e.

Definition throw_new_TypeError {A} (message : string) : M A :=
  e <- new_error "TypeError" message ;; throw e.

(** [k in v] (HasProperty): a TypeError unless [v] is an object. *)
Definition has_property (k : string) (v : jsval) : M bool :=
  match v with
  | VObject _ ps =>
      ret (match lookup k ps with Some _ => true | None => false end)
  | VFunction _ => ret false (* function values carry no data properties here *)
  | _ => throw_new_TypeError "Cannot use 'in' operator"
  end.

(** [v.k] (GetV): a TypeError on [null] and [undefined]; [undefined]
    for an absent property. *)
Definition get (v : jsval) (k : string) : M jsval :=
  match v with
  | VUndefined | VNull => throw_new_TypeError "Cannot read properties"
  | VObject _ ps =>
      ret (match lookup k ps with Some x => x | None => VUndefined end)
  | _ => ret VUndefined
  end.

(** A caller-supplied function: its reference and its behaviour on an
    argument list. *)
Record fn (B : Type) : Type := mkFn {
  fn_ref : nat;
  fn_body : list jsval -> M B
}.
Arguments mkFn {B} fn_ref fn_body.
Arguments fn_ref {B} f.
Arguments fn_body {B} f.

(** [f(args)]: the call is logged, then the body runs. *)
Definition call {B} (f : fn B) (args : list jsval) : M B :=
  fun h =>
    match fn_body f args h with
    | (c, h1, l1) => (c, h1, Called (fn_ref f) args :: l1)
    end.

(** Short-circuit [a && b] on boolean operands. *)
Definition and_then (a b : M bool) : M bool :=
  x <- a ;; if x then b else ret false.

(** Short-circuit [a || b] on boolean operands. *)
Definition or_else (a b : M bool) : M bool :=
  x <- a ;; if x then ret true else b.

Definition not_ (a : M bool) : M bool :=
  x <- a ;; ret (negb x).

(** What a run shows: its completion and its call log. *)
Definition result_of {A} (r : completion A * allocator * list event)
  : completion A := fst (fst r).

Definition log_of {A} (r : completion A * allocator * list event)
  : list event := snd r.

(** [m] returns [a]: it does not throw, allocates nothing and calls no
    caller-supplied function. *)
Definition returns {A} (m : M A) (a : A) : Prop :=
  forall h, m h = (Normal a, h, []).

(** [m] throws: it completes abruptly, returning nothing. *)
Definition throws {A} (m : M A) : Prop :=
  forall h, exists e, result_of (m h) = Abrupt e.

(** A function that throws whenever it is called. *)
Definition tripwire {B} (ref : nat) : fn B :=
  mkFn ref (fun _ => throw (VString "called")).

(** [try { body } catch (error) { handler }]: the handler runs on what
    the body threw, after what the body did. *)
Definition try_catch {A} (body : M A) (handler : jsval -> M A) : M A :=
  fun h =>
    match body h with
    | (Normal a, h1, l1) => (Normal a, h1, l1)
    | (Abrupt e, h1, l1) =>
        match handler e h1 with
        | (c, h2, l2) => (c, h2, (l1 ++ l2)%list)
        end
    end.

End JS.

(** ** The library *)

Module Result.
Import JS.

(** [Ok = (value) => ({ type: 'ok', value })] *)
Definition Ok (value : jsval) : M jsval :=
  new_object [("type", VString "ok"); ("value", value)].

(** [Err = (error) => ({ type: 'err', error })] *)
Definition Err (error : jsval) : M jsval :=
  new_object [("type", VString "err"); ("error", error)].

(** [Loading = () => ({ type: 'loading' })] *)
Definition Loading : M jsval :=
  new_object [("type", VString "loading")].

(** [NotAsked = () => ({ type: 'not-asked' })] *)
Definition NotAsked : M jsval :=
  new_object [("type", VString "not-asked")].

(** [value.type === tag] *)
Definition type_is (value : jsval) (tag : string) : M bool :=
  t <- get value "type" ;; ret (strict_eq t (VString tag)).

(** [validator ? validator(payload) : true], the payload being read
    only when there is a validator. *)
Definition validated (validator : option (fn bool)) (value : jsval)
    (field : string) : M bool :=
  match validator with
  | Some f => p <- get value field ;; call f [p]
  | None => ret true
  end.

Definition isOk (value : jsval) (validator : option (fn bool)) : M bool :=
  and_then (ret (String.eqb (typeof value) "object"))
  (and_then (ret (negb (strict_eq value VNull)))
  (and_then (has_property "type" value)
  (and_then (type_is value "ok")
  (and_then (has_property "value" value)
            (validated validator value "value"))))).

Definition isErr (value : jsval) (validator : option (fn bool)) : M bool :=
  and_then (ret (String.eqb (typeof value) "object"))
  (and_then (ret (negb (strict_eq value VNull)))
  (and_then (has_property "type" value)
  (and_then (type_is value "err")
  (and_then (has_property "error" value)
            (validated validator value "error"))))).

Definition isLoading (value : jsval) : M bool :=
  and_then (ret (String.eqb (typeof value) "object"))
  (and_then (ret (negb (strict_eq value VNull)))
  (and_then (has_property "type" value)
            (type_is value "loading"))).

Definition isNotAsked (value : jsval) : M bool :=
  and_then (ret (String.eqb (typeof value) "object"))
  (and_then (ret (negb (strict_eq value VNull)))
  (and_then (has_property "type" value)
            (type_is value "not-asked"))).

Definition isResult (value : jsval)
    (valueValidator errorValidator : option (fn bool)) : M bool :=
  neither <- and_then (not_ (isOk value None)) (not_ (isErr value None)) ;;
  if neither then ret false else
  ok <- isOk value None ;;
  match ok, valueValidator with
  | true, Some f => p <- get value "value" ;; call f [p]
  | _, _ =>
      err <- isErr value None ;;
      match err, errorValidator with
      | true, Some f => p <- get value "error" ;; call f [p]
      | _, _ => ret true
      end
  end.

Definition isRemoteResult (value : jsval)
    (valueValidator errorValidator : option (fn bool)) : M bool :=
  waiting <- or_else (isLoading value) (isNotAsked value) ;;
  if waiting then ret true
  else isResult value valueValidator errorValidator.

Definition mapOk (result : jsval) (mapper : fn jsval) : M jsval :=
  ok <- isOk result None ;;
  if ok then
    v <- get result "value" ;; u <- call mapper [v] ;; Ok u
  else ret result.

Definition flatMapOk (result : jsval) (mapper : fn jsval) : M jsval :=
  ok <- isOk result None ;;
  if ok then v <- get result "value" ;; call mapper [v]
  else ret result.

Definition mapErr (result : jsval) (mapper : fn jsval) : M jsval :=
  err <- isErr result None ;;
  if err then
    e <- get result "error" ;; u <- call mapper [e] ;; Err u
  else ret result.

Definition flatMapErr (result : jsval) (mapper : fn jsval) : M jsval :=
  err <- isErr result None ;;
  if err then e <- get result "error" ;; call mapper [e]
  else ret result.

Definition unwrap (result : jsval) : M jsval :=
  ok <- isOk result None ;;
  if ok then get result "value"
  else throw_new_Error "Tried to unwrap a non-ok result".

Definition unwrapOr (result defaultValue : jsval) : M jsval :=
  ok <- isOk result None ;;
  if ok then get result "value" else ret defaultValue.

Definition getOrElse (result defaultValue : jsval) : M jsval :=
  unwrapOr result defaultValue.

Definition fold (result : jsval) (onOk onErr : fn jsval) : M jsval :=
  ok <- isOk result None ;;
  if ok then v <- get result "value" ;; call onOk [v] else
  err <- isErr result None ;;
  if err then e <- get result "error" ;; call onErr [e] else
  throw_new_Error "Invalid result type".

Definition bimap (result : jsval) (okMapper errMapper : fn jsval) : M jsval :=
  ok <- isOk result None ;;
  if ok then
    v <- get result "value" ;; u <- call okMapper [v] ;; Ok u
  else
  err <- isErr result None ;;
  if err then
    e <- get result "error" ;; u <- call errMapper [e] ;; Err u
  else throw_new_Error "Invalid result type".

(** The state of the promise that [Promise.resolve] or
    [Promise.reject] returns. *)
Inductive promise : Type :=
| Fulfilled (value : jsval)
| Rejected (reason : jsval).

Definition toPromise (result : jsval) : M promise :=
  ok <- isOk result None ;;
  if ok then v <- get result "value" ;; ret (Fulfilled v) else
  err <- isErr result None ;;
  if err then e <- get result "error" ;; ret (Rejected e) else
  throw_new_Error "Cannot convert Loading or NotAsked to Promise".

Definition fromNullable (value error : jsval) : M jsval :=
  if negb (loose_eq_null value) then Ok value else Err error.

Definition fromNullish (value error : jsval) : M jsval :=
  if loose_eq_null value then Err error else Ok value.

Definition fromFalsy (value error : jsval) : M jsval :=
  if ToBoolean value then Ok value else Err error.

(** [valueEquals ? valueEquals(x, y) : x === y], [x] and [y] being the
    named field of [a] and of [b]. *)
Definition compare_field (valueEquals : option (fn bool)) (a b : jsval)
    (field : string) : M bool :=
  match valueEquals with
  | Some f => x <- get a field ;; y <- get b field ;; call f [x; y]
  | None => x <- get a field ;; y <- get b field ;; ret (strict_eq x y)
  end.

Definition equals (a b : jsval) (valueEquals : option (fn bool)) : M bool :=
  invalid <- or_else (not_ (isRemoteResult a None None))
                     (not_ (isRemoteResult b None None)) ;;
  if invalid then ret false else
  ta <- get a "type" ;;
  tb <- get b "type" ;;
  if negb (strict_eq ta tb) then ret false else
  oks <- and_then (isOk a None) (isOk b None) ;;
  if oks then compare_field valueEquals a b "value" else
  errs <- and_then (isErr a None) (isErr b None) ;;
  if errs then compare_field valueEquals a b "error" else
  ret true.

Definition tryCatchSync (fn : fn jsval) : M jsval :=
  try_catch (result <- call fn [] ;; Ok result) (fun error => Err error).





(** The [matchers] object of [match]: its four functions. *)
Record Matchers : Type := mkMatchers {
  matchers_ok : fn jsval;
  matchers_err : fn jsval;
  matchers_loading : fn jsval;
  matchers_notAsked : fn jsval
}.

(** [match] (a keyword here, hence the underscore). *)
Definition match_ (result : jsval) (matchers : Matchers) : M jsval :=
  ok <- isOk result None ;;
  if ok then v <- get result "value" ;; call (matchers_ok matchers) [v] else
  err <- isErr result None ;;
  if err then e <- get result "error" ;; call (matchers_err matchers) [e] else
  loading <- isLoading result ;;
  if loading then call (matchers_loading matchers) [] else
  notAsked <- isNotAsked result ;;
  if notAsked then call (matchers_notAsked matchers) [] else
  throw_new_Error "Invalid result type".

Definition fromUndefined (value error : jsval) : M jsval :=
  if negb (strict_eq value VUndefined) then Ok value else Err error.

Definition swap (result : jsval) : M jsval :=
  ok <- isOk result None ;;
  if ok then v <- get result "value" ;; Err v else
  err <- isErr result None ;;
  if err then e <- get result "error" ;; Ok e else
  ret result.

Definition isRemoteSuccess (value : jsval) (validator : option (fn bool))
  : M bool :=
  isOk value validator.

Definition isRemoteFailure (value : jsval) (validator : option (fn bool))
  : M bool :=
  isErr value validator.

Definition mapRemote (result : jsval) (mapper : fn jsval) : M jsval :=
  ok <- isOk result None ;;
  if ok then
    v <- get result "value" ;; u <- call mapper [v] ;; Ok u
  else ret result.

(** The [matchers] object of [foldRemote]. *)
Record RemoteMatchers : Type := mkRemoteMatchers {
  matchers_success : fn jsval;
  matchers_failure : fn jsval;
  remote_loading : fn jsval;
  remote_notAsked : fn jsval
}.

Definition foldRemote (result : jsval) (matchers : RemoteMatchers)
  : M jsval :=
  ok <- isOk result None ;;
  if ok then
    v <- get result "value" ;; call (matchers_success matchers) [v] else
  err <- isErr result None ;;
  if err then
    e <- get result "error" ;; call (matchers_failure matchers) [e] else
  loading <- isLoading result ;;
  if loading then call (remote_loading matchers) [] else
  notAsked <- isNotAsked result ;;
  if notAsked then call (remote_notAsked matchers) [] else
  throw_new_Error "Invalid result type".

End Result.

(** ** Vocabulary of the statements *)

Module Shape.
Import JS.

(** The record's [type] field is the string [tag]. *)
Definition has_tag (tag : string) (v : jsval) : bool :=
  match v with
  | VObject _ ps =>
      match lookup "type" ps with
      | Some t => strict_eq t (VString tag)
      | None => false
      end
  | _ => false
  end.

(** The record has a property named [k] (whatever its value). *)
Definition has_field (k : string) (v : jsval) : bool :=
  match v with
  | VObject _ ps => match lookup k ps with Some _ => true | None => false end
  | _ => false
  end.

(** The value of property [k], [undefined] when there is none. *)
Definition field (k : string) (v : jsval) : jsval :=
  match v with
  | VObject _ ps => match lookup k ps with Some x => x | None => VUndefined end
  | _ => VUndefined
  end.

(** Values that are no record of the variant tagged [tag] with payload
    field [payload]: [null], anything that is not an object, a record
    without the tag, a record without the payload field. *)
Inductive lacks (tag : string) (payload : option string) : jsval -> Prop :=
| lacks_null : lacks tag payload VNull
| lacks_non_object v :
    typeof v <> "object" -> lacks tag payload v
| lacks_tag ref ps :
    lookup "type" ps <> Some (VString tag) ->
    lacks tag payload (VObject ref ps)
| lacks_payload ref ps k :
    payload = Some k -> lookup k ps = None ->
    lacks tag payload (VObject ref ps).

(** The four variants as the constructors build them, at any reference. *)
Inductive is_Result : jsval -> Prop :=
| Result_Ok ref v :
    is_Result (VObject ref [("type", VString "ok"); ("value", v)])
| Result_Err ref e :
    is_Result (VObject ref [("type", VString "err"); ("error", e)]).

Inductive is_RemoteResult : jsval -> Prop :=
| Remote_Result r : is_Result r -> is_RemoteResult r
| Remote_Loading ref :
    is_RemoteResult (VObject ref [("type", VString "loading")])
| Remote_NotAsked ref :
    is_RemoteResult (VObject ref [("type", VString "not-asked")]).

(** Equality of records up to their own identity: the same properties
    with the same values, as [deepStrictEqual] compares two results
    holding the same payload. *)
Definition forget_ref (v : jsval) : jsval :=
  match v with
  | VObject _ ps => VObject 0 ps
  | _ => v
  end.

Definition same_record (a b : jsval) : Prop := forget_ref a = forget_ref b.

(** What the guards accept, read off the record. *)
Abbreviation ok_shaped v := (has_tag "ok" v && has_field "value" v).
Abbreviation err_shaped v := (has_tag "err" v && has_field "error" v).
Abbreviation remote_shaped v :=
  ((has_tag "loading" v || has_tag "not-asked" v)
   || (ok_shaped v || err_shaped v)).

(** Equality up to the identity of every object in the value. *)
Fixpoint erase (v : jsval) : jsval :=
  match v with
  | VObject _ ps => VObject 0 (map (fun kv => (fst kv, erase (snd kv))) ps)
  | _ => v
  end.

Definition deep_equal (a b : jsval) : Prop := erase a = erase b.

(** Two completions agree: both return, or both throw, deep-equal
    values. *)
Definition agree (c1 c2 : completion jsval) : Prop :=
  match c1, c2 with
  | Normal a, Normal b => deep_equal a b
  | Abrupt a, Abrupt b => deep_equal a b
  | _, _ => False
  end.

(** A function whose outcome does not depend on the references the
    allocator will hand out next.  JavaScript code cannot observe them;
    a function of the model could. *)
Definition allocation_blind (g : fn jsval) : Prop :=
  forall args h h',
    agree (result_of (fn_body g args h)) (result_of (fn_body g args h')).

End Shape.

(** ** Functions passed to the combinators in the laws *)

Module Closures.
Import JS Result.

(** The first argument of a call, [undefined] when there is none. *)
Definition arg0 (args : list jsval) : jsval := nth 0 args VUndefined.

(** [x => x] *)
Definition identity (ref : nat) : fn jsval :=
  mkFn ref (fun args => ret (arg0 args)).

(** [x => g(f(x))] *)
Definition compose (ref : nat) (g f : fn jsval) : fn jsval :=
  mkFn ref (fun args => y <- call f [arg0 args] ;; call g [y]).

(** The constructor [Ok] passed as a function. *)
Definition Ok_fn (ref : nat) : fn jsval :=
  mkFn ref (fun args => Ok (arg0 args)).

(** [x => flatMapOk(f(x), g)] *)
Definition then_flatMapOk (ref : nat) (f g : fn jsval) : fn jsval :=
  mkFn ref (fun args => y <- call f [arg0 args] ;; flatMapOk y g).

(** [x => ({ wrapped: x })], a function that allocates. *)
Definition wrap (ref : nat) : fn jsval :=
  mkFn ref (fun args => new_object [("wrapped", arg0 args)]).

(** [x => x === 1], a validator. *)
Definition is_one (ref : nat) : fn bool :=
  mkFn ref (fun args => ret (strict_eq (arg0 args) (VNumber 1%float))).

(** [x => x * 2], on numbers; any other argument gives [NaN] here. *)
Definition double (ref : nat) : fn jsval :=
  mkFn ref (fun args =>
    match arg0 args with
    | VNumber x => ret (VNumber (x * 2)%float)
    | _ => ret (VNumber NaN)
    end).

(** [e => e === "net" ? Ok("cached") : Err(e)] *)
Definition recover (ref : nat) : fn jsval :=
  mkFn ref (fun args =>
    if strict_eq (arg0 args) (VString "net")
    then Ok (VString "cached") else Err (arg0 args)).

(** [(x, y) => typeof x === typeof y], a comparator that ignores
    identity. *)
Definition same_typeof (ref : nat) : fn bool :=
  mkFn ref (fun args =>
    ret (String.eqb (typeof (nth 0 args VUndefined))
                    (typeof (nth 1 args VUndefined)))).

(** The constructor [Err] passed as a function. *)
Definition Err_fn (ref : nat) : fn jsval :=
  mkFn ref (fun args => Err (arg0 args)).

(** [x => Ok(f(x))] *)
Definition Ok_after (ref : nat) (f : fn jsval) : fn jsval :=
  mkFn ref (fun args => u <- call f [arg0 args] ;; Ok u).

(** [x => Err(f(x))] *)
Definition Err_after (ref : nat) (f : fn jsval) : fn jsval :=
  mkFn ref (fun args => u <- call f [arg0 args] ;; Err u).

(** [x => flatMapErr(f(x), g)] *)
Definition then_flatMapErr (ref : nat) (f g : fn jsval) : fn jsval :=
  mkFn ref (fun args => y <- call f [arg0 args] ;; flatMapErr y g).

(** [() => v] *)
Definition constant {B} (ref : nat) (v : B) : fn B :=
  mkFn ref (fun _ => ret v).

(** [() => unwrap(r)] *)
Definition unwrap_of (ref : nat) (r : jsval) : fn jsval :=
  mkFn ref (fun _ => unwrap r).


(** The matchers of [match] that the matchers of [foldRemote] name. *)
Definition as_Matchers (m : RemoteMatchers) : Matchers :=
  mkMatchers (matchers_success m) (matchers_failure m)
             (remote_loading m) (remote_notAsked m).

(** Is the value the number [NaN]? *)
Definition is_NaN (v : jsval) : bool :=
  match v with
  | VNumber x => PrimFloat.is_nan x
  | _ => false
  end.

(** [equals(Ok({}), Ok({}), valueEquals)] *)
Definition equals_of_two_empty_objects (valueEquals : option (fn bool))
  : M bool :=
  o1 <- new_object [] ;; a <- Ok o1 ;;
  o2 <- new_object [] ;; b <- Ok o2 ;;
  equals a b valueEquals.

End Closures.

(** ** Case analysis for [swap] *)

Module SwapCases.
Import JS Result Shape.

(** The five shapes of a value, with what [swap] makes of each. *)
Inductive swap_case (v : jsval) (h : allocator) : Prop :=
| case_ok :
    ok_shaped v = true -> err_shaped v = false ->
    field "type" v = VString "ok" ->
    swap v h = (Normal (VObject h [("type", VString "err");
                                   ("error", field "value" v)]), S h, []) ->
    swap_case v h
| case_err :
    ok_shaped v = false -> err_shaped v = true ->
    field "type" v = VString "err" ->
    swap v h = (Normal (VObject h [("type", VString "ok");
                                   ("value", field "error" v)]), S h, []) ->
    swap_case v h
| case_waiting tag :
    ok_shaped v = false -> err_shaped v = false ->
    has_tag "loading" v || has_tag "not-asked" v = true ->
    field "type" v = VString tag -> tag <> "ok" -> tag <> "err" ->
    swap v h = (Normal v, h, []) ->
    swap_case v h
| case_none :
    ok_shaped v = false -> err_shaped v = false ->
    has_tag "loading" v || has_tag "not-asked" v = false ->
    swap v h = (Normal v, h, []) ->
    swap_case v h.

End SwapCases.

(** ** Running computations *)

Section Runs.
Import JS Result Shape.

Lemma bind_quiet {A B} (m : M A) (k : A -> M B) h a h1 :
  m h = (Normal a, h1, []) -> bind m k h = k a h1.
Proof.
  intro R. unfold bind. rewrite R.
  now destruct (k a h1) as [[c h2] l2].
Qed.

Lemma bind_run {A B} (m : M A) (k : A -> M B) h a h1 l1 c h2 l2 :
  m h = (Normal a, h1, l1) -> k a h1 = (c, h2, l2) ->
  bind m k h = (c, h2, (l1 ++ l2)%list).
Proof. intros R1 R2. unfold bind. now rewrite R1, R2. Qed.

Lemma bind_abrupt {A B} (m : M A) (k : A -> M B) h e h1 l1 :
  m h = (Abrupt e, h1, l1) -> bind m k h = (Abrupt e, h1, l1).
Proof. intro R. unfold bind. now rewrite R. Qed.

Lemma call_run {B} (f : fn B) args h c h1 l1 :
  fn_body f args h = (c, h1, l1) ->
  call f args h = (c, h1, Called (fn_ref f) args :: l1).
Proof. intro R. unfold call. now rewrite R. Qed.

Lemma not_quiet (m : M bool) h a h1 :
  m h = (Normal a, h1, []) -> not_ m h = (Normal (negb a), h1, []).
Proof. intro R. unfold not_. now rewrite (bind_quiet _ _ _ _ _ R). Qed.

Lemma and_then_quiet (a b : M bool) h x h1 :
  a h = (Normal x, h1, []) ->
  and_then a b h = if x then b h1 else (Normal false, h1, []).
Proof.
  intro R. unfold and_then. rewrite (bind_quiet _ _ _ _ _ R).
  now destruct x.
Qed.

Lemma or_else_quiet (a b : M bool) h x h1 :
  a h = (Normal x, h1, []) ->
  or_else a b h = if x then (Normal true, h1, []) else b h1.
Proof.
  intro R. unfold or_else. rewrite (bind_quiet _ _ _ _ _ R).
  now destruct x.
Qed.

Lemma agree_refl c : agree c c.
Proof. now destruct c. Qed.

Lemma throw_new_Error_throws {A} message :
  throws (@throw_new_Error A message).
Proof. intro h. now eexists. Qed.

End Runs.

(** ** The type guards *)

Section Guards.
Import JS Result Shape Closures.

Lemma strict_eq_string t s : strict_eq t (VString s) = true <-> t = VString s.
Proof.
  destruct t; simpl; split; try discriminate; intro H.
  - apply String.eqb_eq in H. now subst.
  - injection H as ->. apply String.eqb_refl.
Qed.

Lemma has_tag_iff tag v :
  has_tag tag v = true <->
  exists ref ps, v = VObject ref ps /\ lookup "type" ps = Some (VString tag).
Proof.
  split.
  - destruct v; simpl; try discriminate.
    destruct (lookup "type" props) as [t|] eqn:E; try discriminate.
    intro H. apply strict_eq_string in H. subst. eauto.
  - intros (ref & ps & -> & E). simpl. rewrite E. now apply strict_eq_string.
Qed.

(** A record has one tag. *)
Lemma has_tag_functional t1 t2 v :
  has_tag t1 v = true -> has_tag t2 v = true -> t1 = t2.
Proof.
  intros H1 H2. apply has_tag_iff in H1, H2.
  destruct H1 as (r1 & p1 & -> & E1), H2 as (r2 & p2 & [= <- <-] & E2).
  congruence.
Qed.

Lemma has_tag_object tag v :
  has_tag tag v = true -> typeof v = "object" /\ v <> VNull.
Proof. destruct v; simpl; try discriminate. now split. Qed.

Lemma has_tag_field tag v :
  has_tag tag v = true -> field "type" v = VString tag.
Proof.
  intro T. apply has_tag_iff in T as (ref & ps & -> & E). simpl. now rewrite E.
Qed.

Lemma other_tag_not_ok tag v :
  has_tag tag v = true -> tag <> "ok" -> ok_shaped v = false.
Proof.
  intros T N. destruct (has_tag "ok" v) eqn:O; [| reflexivity].
  now elim N; apply (has_tag_functional _ _ _ T O).
Qed.

Lemma other_tag_not_err tag v :
  has_tag tag v = true -> tag <> "err" -> err_shaped v = false.
Proof.
  intros T N. destruct (has_tag "err" v) eqn:O; [| reflexivity].
  now elim N; apply (has_tag_functional _ _ _ T O).
Qed.

Lemma ok_shape_not_err v : ok_shaped v = true -> err_shaped v = false.
Proof.
  intro H. apply andb_true_iff in H as [H _].
  apply (other_tag_not_err _ _ H). discriminate.
Qed.

Lemma lacks_shape tag payload v :
  lacks tag payload v ->
  has_tag tag v = false \/
  exists k, payload = Some k /\ has_field k v = false.
Proof.
  intros [ | w Hw | ref ps Ht | ref ps k -> Hk ].
  - now left.
  - left. destruct w; try reflexivity; now elim Hw.
  - left. simpl. destruct (lookup "type" ps) as [t|]; try reflexivity.
    destruct (strict_eq t (VString tag)) eqn:E; try reflexivity.
    apply strict_eq_string in E. congruence.
  - right. exists k. split; [reflexivity|]. simpl. now rewrite Hk.
Qed.

Lemma get_field v k h :
  typeof v = "object" -> v <> VNull ->
  get v k h = (Normal (field k v), h, []).
Proof.
  destruct v; simpl; try discriminate; intros; congruence || reflexivity.
Qed.

Lemma validated_run tag f v k h :
  has_tag tag v = true ->
  validated (Some f) v k h = call f [field k v] h.
Proof.
  intro T. apply has_tag_object in T as [Hobj Hnn]. unfold validated.
  now rewrite (bind_quiet _ _ _ _ _ (get_field v k h Hobj Hnn)).
Qed.

Lemma isOk_run v validator h :
  isOk v validator h =
  if ok_shaped v then validated validator v "value" h
  else (Normal false, h, []).
Proof.
  destruct v; try reflexivity.
  unfold isOk, and_then, type_is, bind, ret; simpl.
  destruct (lookup "type" props) as [t|]; simpl; try reflexivity.
  destruct (strict_eq t (VString "ok")); simpl; try reflexivity.
  destruct (lookup "value" props); simpl; try reflexivity.
  destruct (validated validator _ _ h) as [[c h1] l1]. reflexivity.
Qed.

Lemma isErr_run v validator h :
  isErr v validator h =
  if err_shaped v then validated validator v "error" h
  else (Normal false, h, []).
Proof.
  destruct v; try reflexivity.
  unfold isErr, and_then, type_is, bind, ret; simpl.
  destruct (lookup "type" props) as [t|]; simpl; try reflexivity.
  destruct (strict_eq t (VString "err")); simpl; try reflexivity.
  destruct (lookup "error" props); simpl; try reflexivity.
  destruct (validated validator _ _ h) as [[c h1] l1]. reflexivity.
Qed.

Lemma isLoading_run v h :
  isLoading v h = (Normal (has_tag "loading" v), h, []).
Proof.
  destruct v; try reflexivity.
  unfold isLoading, and_then, type_is, bind, ret; simpl.
  destruct (lookup "type" props) as [t|]; reflexivity.
Qed.

Lemma isNotAsked_run v h :
  isNotAsked v h = (Normal (has_tag "not-asked" v), h, []).
Proof.
  destruct v; try reflexivity.
  unfold isNotAsked, and_then, type_is, bind, ret; simpl.
  destruct (lookup "type" props) as [t|]; reflexivity.
Qed.

Lemma isOk_None v h : isOk v None h = (Normal (ok_shaped v), h, []).
Proof. rewrite isOk_run. now destruct (ok_shaped v). Qed.

Lemma isErr_None v h : isErr v None h = (Normal (err_shaped v), h, []).
Proof. rewrite isErr_run. now destruct (err_shaped v). Qed.

Lemma isOk_Some v f h :
  isOk v (Some f) h =
  if ok_shaped v then call f [field "value" v] h else (Normal false, h, []).
Proof.
  rewrite isOk_run. destruct (has_tag "ok" v) eqn:T; [| reflexivity].
  destruct (has_field "value" v); [| reflexivity].
  now apply (validated_run "ok").
Qed.

Lemma isErr_Some v f h :
  isErr v (Some f) h =
  if err_shaped v then call f [field "error" v] h else (Normal false, h, []).
Proof.
  rewrite isErr_run. destruct (has_tag "err" v) eqn:T; [| reflexivity].
  destruct (has_field "error" v); [| reflexivity].
  now apply (validated_run "err").
Qed.

Lemma isOk_returns v b : returns (isOk v None) b <-> ok_shaped v = b.
Proof.
  split.
  - intro R. specialize (R 0). rewrite isOk_None in R. congruence.
  - intros <- h. apply isOk_None.
Qed.

Lemma isErr_returns v b : returns (isErr v None) b <-> err_shaped v = b.
Proof.
  split.
  - intro R. specialize (R 0). rewrite isErr_None in R. congruence.
  - intros <- h. apply isErr_None.
Qed.

Lemma isLoading_returns v b :
  returns (isLoading v) b <-> has_tag "loading" v = b.
Proof.
  split.
  - intro R. specialize (R 0). rewrite isLoading_run in R. congruence.
  - intros <- h. apply isLoading_run.
Qed.

Lemma isNotAsked_returns v b :
  returns (isNotAsked v) b <-> has_tag "not-asked" v = b.
Proof.
  split.
  - intro R. specialize (R 0). rewrite isNotAsked_run in R. congruence.
  - intros <- h. apply isNotAsked_run.
Qed.

Lemma not_ok_shape v :
  returns (isOk v None) false \/ lacks "ok" (Some "value") v ->
  ok_shaped v = false.
Proof.
  intros [R|L]; [now apply isOk_returns |].
  destruct (lacks_shape _ _ _ L) as [E | (k & [= <-] & E)]; rewrite E;
    [reflexivity | apply andb_false_r].
Qed.

Lemma not_err_shape v :
  returns (isErr v None) false \/ lacks "err" (Some "error") v ->
  err_shaped v = false.
Proof.
  intros [R|L]; [now apply isErr_returns |].
  destruct (lacks_shape _ _ _ L) as [E | (k & [= <-] & E)]; rewrite E;
    [reflexivity | apply andb_false_r].
Qed.

Lemma waiting_shape r :
  returns (isLoading r) true \/ returns (isNotAsked r) true ->
  ok_shaped r = false /\ err_shaped r = false.
Proof.
  intros [W|W]; [apply isLoading_returns in W | apply isNotAsked_returns in W];
    split;
    (apply (other_tag_not_ok _ _ W) || apply (other_tag_not_err _ _ W));
    discriminate.
Qed.

Lemma isResult_run v vv ev h :
  isResult v vv ev h =
  if ok_shaped v then validated vv v "value" h
  else if err_shaped v then validated ev v "error" h
  else (Normal false, h, []).
Proof.
  assert (N : and_then (not_ (isOk v None)) (not_ (isErr v None)) h =
              (Normal (negb (ok_shaped v) && negb (err_shaped v)), h, [])).
  { rewrite (and_then_quiet _ _ _ _ _ (not_quiet _ _ _ _ (isOk_None v h))).
    destruct (ok_shaped v); [reflexivity|].
    apply (not_quiet _ _ _ _ (isErr_None v h)). }
  unfold isResult. rewrite (bind_quiet _ _ _ _ _ N).
  destruct (ok_shaped v) eqn:O; simpl.
  - rewrite (bind_quiet _ _ _ _ _ (isOk_None v h)), O.
    destruct vv as [f|]; [reflexivity|].
    rewrite (bind_quiet _ _ _ _ _ (isErr_None v h)).
    now rewrite (ok_shape_not_err _ O).
  - destruct (err_shaped v) eqn:E; simpl; [| reflexivity].
    rewrite (bind_quiet _ _ _ _ _ (isOk_None v h)), O.
    rewrite (bind_quiet _ _ _ _ _ (isErr_None v h)), E.
    now destruct ev.
Qed.

Lemma isRemoteResult_run v vv ev h :
  isRemoteResult v vv ev h =
  if has_tag "loading" v || has_tag "not-asked" v
  then (Normal true, h, [])
  else isResult v vv ev h.
Proof.
  assert (W : or_else (isLoading v) (isNotAsked v) h =
              (Normal (has_tag "loading" v || has_tag "not-asked" v), h, [])).
  { rewrite (or_else_quiet _ _ _ _ _ (isLoading_run v h)).
    destruct (has_tag "loading" v); [reflexivity|]. apply isNotAsked_run. }
  unfold isRemoteResult. rewrite (bind_quiet _ _ _ _ _ W).
  now destruct (_ || _).
Qed.

(** C2. The guards never throw on what is not their variant: on [null],
    on a value that is not an object and on a record lacking the tag or
    the payload field, [isOk], [isErr], [isLoading] and [isNotAsked]
    return [false], whatever validator is supplied, and do not run it;
    without a validator a guard returns a boolean on every value.  With
    a validator, [isOk] and [isErr] return [true] exactly when the tag
    and the payload field are there and the validator accepts the
    payload; a record with the right tag whose payload the validator
    rejects gives [false]. *)
Theorem guards_never_throw_and_validate :
  (forall v validator,
     lacks "ok" (Some "value") v -> returns (isOk v validator) false) /\
  (forall v validator,
     lacks "err" (Some "error") v -> returns (isErr v validator) false) /\
  (forall v, lacks "loading" None v -> returns (isLoading v) false) /\
  (forall v, lacks "not-asked" None v -> returns (isNotAsked v) false) /\
  (forall v, exists b1 b2 b3 b4,
     returns (isOk v None) b1 /\ returns (isErr v None) b2 /\
     returns (isLoading v) b3 /\ returns (isNotAsked v) b4) /\
  (forall v f h,
     result_of (isOk v (Some f) h) = Normal true <->
     has_tag "ok" v = true /\ has_field "value" v = true /\
     result_of (call f [field "value" v] h) = Normal true) /\
  (forall v f h,
     result_of (isErr v (Some f) h) = Normal true <->
     has_tag "err" v = true /\ has_field "error" v = true /\
     result_of (call f [field "error" v] h) = Normal true) /\
  (forall v f h,
     has_tag "ok" v = true ->
     result_of (call f [field "value" v] h) = Normal false ->
     result_of (isOk v (Some f) h) = Normal false) /\
  (forall v f h,
     has_tag "err" v = true ->
     result_of (call f [field "error" v] h) = Normal false ->
     result_of (isErr v (Some f) h) = Normal false).
Proof.
  split; [| split; [| split; [| split; [| split;
    [| split; [| split; [| split]]]]]]].
  - intros v validator L h. rewrite isOk_run.
    now rewrite (not_ok_shape v (or_intror L)).
  - intros v validator L h. rewrite isErr_run.
    now rewrite (not_err_shape v (or_intror L)).
  - intros v L h. rewrite isLoading_run.
    destruct (lacks_shape _ _ _ L) as [E | (k & [=] & _)]. now rewrite E.
  - intros v L h. rewrite isNotAsked_run.
    destruct (lacks_shape _ _ _ L) as [E | (k & [=] & _)]. now rewrite E.
  - intros v.
    exists (ok_shaped v), (err_shaped v),
           (has_tag "loading" v), (has_tag "not-asked" v).
    split; [| split; [| split]]; intro h.
    + apply isOk_None.
    + apply isErr_None.
    + apply isLoading_run.
    + apply isNotAsked_run.
  - intros v f h. rewrite isOk_Some.
    destruct (has_tag "ok" v), (has_field "value" v); simpl;
      intuition discriminate.
  - intros v f h. rewrite isErr_Some.
    destruct (has_tag "err" v), (has_field "error" v); simpl;
      intuition discriminate.
  - intros v f h T C. rewrite isOk_Some, T.
    now destruct (has_field "value" v).
  - intros v f h T C. rewrite isErr_Some, T.
    now destruct (has_field "error" v).
Qed.

Lemma guards_never_throw_and_validate_witness :
  (lacks "ok" (Some "value") VNull /\
   returns (isOk VNull (Some (tripwire 7))) false) /\
  (lacks "err" (Some "error") (VString "err") /\
   returns (isErr (VString "err") (Some (tripwire 7))) false) /\
  (lacks "loading" None (VObject 0 []) /\
   returns (isLoading (VObject 0 [])) false) /\
  (lacks "not-asked" None (VObject 0 [("type", VString "loading")]) /\
   returns (isNotAsked (VObject 0 [("type", VString "loading")])) false) /\
  (lacks "ok" (Some "value") (VObject 0 [("type", VString "ok")]) /\
   returns (isOk (VObject 0 [("type", VString "ok")]) (Some (tripwire 7)))
           false) /\
  (has_tag "ok" (VObject 0 [("type", VString "ok"); ("value", VNumber 2)])
     = true /\
   result_of (isOk (VObject 0 [("type", VString "ok"); ("value", VNumber 2)])
                   (Some (is_one 7)) 1) = Normal false) /\
  result_of (isOk (VObject 0 [("type", VString "ok"); ("value", VNumber 1)])
                  (Some (is_one 7)) 1) = Normal true.
Proof.
  pose proof guards_never_throw_and_validate
    as (Hok & Herr & Hloading & Hnotasked & _ & Hiff & _ & Hreject & _).
  assert (L1 : lacks "ok" (Some "value") VNull) by constructor.
  assert (L2 : lacks "err" (Some "error") (VString "err"))
    by (apply lacks_non_object; discriminate).
  assert (L3 : lacks "loading" None (VObject 0 []))
    by (apply lacks_tag; discriminate).
  assert (L4 : lacks "not-asked" None (VObject 0 [("type", VString "loading")]))
    by (apply lacks_tag; discriminate).
  assert (L5 : lacks "ok" (Some "value") (VObject 0 [("type", VString "ok")]))
    by (now apply (lacks_payload _ _ _ _ "value")).
  split; [exact (conj L1 (Hok _ _ L1)) |].
  split; [exact (conj L2 (Herr _ _ L2)) |].
  split; [exact (conj L3 (Hloading _ L3)) |].
  split; [exact (conj L4 (Hnotasked _ L4)) |].
  split; [exact (conj L5 (Hok _ _ L5)) |].
  split.
  - split; [reflexivity |]. apply Hreject; reflexivity.
  - apply Hiff. repeat split; reflexivity.
Defined.

(** C3. [isResult] returns [true] exactly when one of the [isOk] and
    [isErr] guards succeeds, with the validator of that branch, while
    the other guard fails.  On an [Ok] the run of [isResult] is the run
    of [isOk] with the value validator (one call, of that validator on
    the payload, or no call when there is none): the error validator is
    not evaluated; and symmetrically on an [Err].  [isRemoteResult]
    returns [true] on a [Loading] and on a [NotAsked] whatever the
    validators, without running them, and is [isResult] elsewhere. *)
Theorem isResult_iff_one_guard :
  (forall v vv ev h,
     result_of (isResult v vv ev h) = Normal true <->
     (result_of (isOk v vv h) = Normal true /\ returns (isErr v None) false)
     \/
     (result_of (isErr v ev h) = Normal true /\ returns (isOk v None) false))
  /\
  (forall v vv ev h,
     returns (isOk v None) true ->
     isResult v vv ev h = isOk v vv h /\
     isResult v vv ev h =
       match vv with
       | Some f => call f [field "value" v] h
       | None => (Normal true, h, [])
       end) /\
  (forall v vv ev h,
     returns (isErr v None) true ->
     isResult v vv ev h = isErr v ev h /\
     isResult v vv ev h =
       match ev with
       | Some f => call f [field "error" v] h
       | None => (Normal true, h, [])
       end) /\
  (forall v vv ev,
     returns (isLoading v) true \/ returns (isNotAsked v) true ->
     returns (isRemoteResult v vv ev) true) /\
  (forall v vv ev h,
     returns (isLoading v) false -> returns (isNotAsked v) false ->
     isRemoteResult v vv ev h = isResult v vv ev h).
Proof.
  split; [| split; [| split; [| split]]].
  - intros v vv ev h. rewrite isResult_run, isOk_run, isErr_run.
    rewrite !isOk_returns, !isErr_returns.
    destruct (ok_shaped v) eqn:O.
    + rewrite (ok_shape_not_err _ O). simpl. intuition discriminate.
    + destruct (err_shaped v); simpl; intuition discriminate.
  - intros v vv ev h O. apply isOk_returns in O.
    rewrite isResult_run, isOk_run, O. split; [reflexivity|].
    destruct vv as [f|]; [| reflexivity].
    apply andb_true_iff in O as [T _]. now apply (validated_run "ok").
  - intros v vv ev h E. apply isErr_returns in E.
    rewrite isResult_run, isErr_run, E.
    destruct (ok_shaped v) eqn:O.
    { rewrite (ok_shape_not_err _ O) in E. discriminate. }
    split; [reflexivity|].
    destruct ev as [f|]; [| reflexivity].
    apply andb_true_iff in E as [T _]. now apply (validated_run "err").
  - intros v vv ev W h. rewrite isRemoteResult_run.
    destruct W as [W|W];
      [ apply isLoading_returns in W | apply isNotAsked_returns in W ];
      rewrite W; now rewrite ?orb_true_r.
  - intros v vv ev h L N. rewrite isRemoteResult_run.
    apply isLoading_returns in L. apply isNotAsked_returns in N.
    now rewrite L, N.
Qed.

Lemma isResult_iff_one_guard_witness :
  (returns (isOk (VObject 0 [("type", VString "ok"); ("value", VNumber 1)])
                 None) true /\
   isResult (VObject 0 [("type", VString "ok"); ("value", VNumber 1)])
            (Some (is_one 7)) (Some (tripwire 8)) 1 =
   (Normal true, 1, [Called 7 [VNumber 1]])) /\
  (returns (isErr (VObject 0 [("type", VString "err"); ("error", VNull)])
                  None) true /\
   isResult (VObject 0 [("type", VString "err"); ("error", VNull)])
            (Some (tripwire 7)) None 1 = (Normal true, 1, [])) /\
  (returns (isLoading (VObject 0 [("type", VString "loading")])) true /\
   returns (isRemoteResult (VObject 0 [("type", VString "loading")])
                           (Some (tripwire 7)) (Some (tripwire 8))) true) /\
  (returns (isLoading VNull) false /\ returns (isNotAsked VNull) false /\
   isRemoteResult VNull None None 1 = isResult VNull None None 1).
Proof.
  pose proof isResult_iff_one_guard as (_ & Hok & Herr & Hwait & Hrest).
  assert (O : returns (isOk (VObject 0 [("type", VString "ok");
                                        ("value", VNumber 1)]) None) true)
    by (intro h; reflexivity).
  assert (E : returns (isErr (VObject 0 [("type", VString "err");
                                         ("error", VNull)]) None) true)
    by (intro h; reflexivity).
  assert (L : returns (isLoading (VObject 0 [("type", VString "loading")]))
                      true)
    by (intro h; reflexivity).
  assert (N1 : returns (isLoading VNull) false) by (intro h; reflexivity).
  assert (N2 : returns (isNotAsked VNull) false) by (intro h; reflexivity).
  split; [split; [exact O |] |].
  { exact (proj2 (Hok _ (Some (is_one 7)) (Some (tripwire 8)) 1 O)). }
  split; [split; [exact E |] |].
  { exact (proj2 (Herr _ (Some (tripwire 7)) None 1 E)). }
  split; [exact (conj L (Hwait _ _ _ (or_introl L))) |].
  exact (conj N1 (conj N2 (Hrest _ None None 1 N1 N2))).
Defined.

End Guards.

(** ** The transformation algebra *)

Section Combinators.
Import JS Result Shape Closures.

Lemma get_value r h :
  ok_shaped r = true -> get r "value" h = (Normal (field "value" r), h, []).
Proof.
  intro O. apply andb_true_iff in O as [T _].
  apply get_field; now apply (has_tag_object "ok").
Qed.

Lemma get_error r h :
  err_shaped r = true -> get r "error" h = (Normal (field "error" r), h, []).
Proof.
  intro O. apply andb_true_iff in O as [T _].
  apply get_field; now apply (has_tag_object "err").
Qed.

Lemma mapOk_run r f h :
  mapOk r f h =
  if ok_shaped r
  then (u <- call f [field "value" r] ;; Ok u) h
  else (Normal r, h, []).
Proof.
  unfold mapOk. rewrite (bind_quiet _ _ _ _ _ (isOk_None r h)).
  destruct (ok_shaped r) eqn:O; [| reflexivity].
  now rewrite (bind_quiet _ _ _ _ _ (get_value r h O)).
Qed.

Lemma flatMapOk_run r f h :
  flatMapOk r f h =
  if ok_shaped r then call f [field "value" r] h else (Normal r, h, []).
Proof.
  unfold flatMapOk. rewrite (bind_quiet _ _ _ _ _ (isOk_None r h)).
  destruct (ok_shaped r) eqn:O; [| reflexivity].
  now rewrite (bind_quiet _ _ _ _ _ (get_value r h O)).
Qed.

Lemma mapErr_run r f h :
  mapErr r f h =
  if err_shaped r
  then (u <- call f [field "error" r] ;; Err u) h
  else (Normal r, h, []).
Proof.
  unfold mapErr. rewrite (bind_quiet _ _ _ _ _ (isErr_None r h)).
  destruct (err_shaped r) eqn:O; [| reflexivity].
  now rewrite (bind_quiet _ _ _ _ _ (get_error r h O)).
Qed.

Lemma flatMapErr_run r f h :
  flatMapErr r f h =
  if err_shaped r then call f [field "error" r] h else (Normal r, h, []).
Proof.
  unfold flatMapErr. rewrite (bind_quiet _ _ _ _ _ (isErr_None r h)).
  destruct (err_shaped r) eqn:O; [| reflexivity].
  now rewrite (bind_quiet _ _ _ _ _ (get_error r h O)).
Qed.

Lemma unwrapOr_run r d h :
  unwrapOr r d h =
  (Normal (if ok_shaped r then field "value" r else d), h, []).
Proof.
  unfold unwrapOr. rewrite (bind_quiet _ _ _ _ _ (isOk_None r h)).
  destruct (ok_shaped r) eqn:O; [| reflexivity].
  now apply get_value.
Qed.

Lemma unwrap_run r h :
  unwrap r h =
  if ok_shaped r then (Normal (field "value" r), h, [])
  else throw_new_Error "Tried to unwrap a non-ok result" h.
Proof.
  unfold unwrap. rewrite (bind_quiet _ _ _ _ _ (isOk_None r h)).
  destruct (ok_shaped r) eqn:O; [| reflexivity].
  now apply get_value.
Qed.

Lemma fold_run r onOk onErr h :
  fold r onOk onErr h =
  if ok_shaped r then call onOk [field "value" r] h
  else if err_shaped r then call onErr [field "error" r] h
  else throw_new_Error "Invalid result type" h.
Proof.
  unfold fold. rewrite (bind_quiet _ _ _ _ _ (isOk_None r h)).
  destruct (ok_shaped r) eqn:O.
  { now rewrite (bind_quiet _ _ _ _ _ (get_value r h O)). }
  rewrite (bind_quiet _ _ _ _ _ (isErr_None r h)).
  destruct (err_shaped r) eqn:E; [| reflexivity].
  now rewrite (bind_quiet _ _ _ _ _ (get_error r h E)).
Qed.

Lemma bimap_run r f g h :
  bimap r f g h =
  if ok_shaped r then (u <- call f [field "value" r] ;; Ok u) h
  else if err_shaped r then (u <- call g [field "error" r] ;; Err u) h
  else throw_new_Error "Invalid result type" h.
Proof.
  unfold bimap. rewrite (bind_quiet _ _ _ _ _ (isOk_None r h)).
  destruct (ok_shaped r) eqn:O.
  { now rewrite (bind_quiet _ _ _ _ _ (get_value r h O)). }
  rewrite (bind_quiet _ _ _ _ _ (isErr_None r h)).
  destruct (err_shaped r) eqn:E; [| reflexivity].
  now rewrite (bind_quiet _ _ _ _ _ (get_error r h E)).
Qed.

Lemma toPromise_run r h :
  toPromise r h =
  if ok_shaped r then (Normal (Fulfilled (field "value" r)), h, [])
  else if err_shaped r then (Normal (Rejected (field "error" r)), h, [])
  else throw_new_Error "Cannot convert Loading or NotAsked to Promise" h.
Proof.
  unfold toPromise. rewrite (bind_quiet _ _ _ _ _ (isOk_None r h)).
  destruct (ok_shaped r) eqn:O.
  { now rewrite (bind_quiet _ _ _ _ _ (get_value r h O)). }
  rewrite (bind_quiet _ _ _ _ _ (isErr_None r h)).
  destruct (err_shaped r) eqn:E; [| reflexivity].
  now rewrite (bind_quiet _ _ _ _ _ (get_error r h E)).
Qed.

Lemma Ok_run v h :
  Ok v h = (Normal (VObject h [("type", VString "ok"); ("value", v)]), S h, []).
Proof. reflexivity. Qed.

Lemma mapOk_call r f h c h1 l1 :
  ok_shaped r = true ->
  call f [field "value" r] h = (c, h1, l1) ->
  mapOk r f h =
  match c with
  | Normal u =>
      (Normal (VObject h1 [("type", VString "ok"); ("value", u)]), S h1, l1)
  | Abrupt e => (Abrupt e, h1, l1)
  end.
Proof.
  intros O C. rewrite mapOk_run, O. destruct c as [u|e].
  - rewrite (bind_run _ (fun x => Ok x) _ _ _ _ _ _ _ C (Ok_run u h1)).
    now rewrite app_nil_r.
  - apply (bind_abrupt _ _ _ _ _ _ C).
Qed.

Lemma mapOk_compose r f g k h :
  allocation_blind g ->
  agree (result_of ((r1 <- mapOk r f ;; mapOk r1 g) h))
        (result_of (mapOk r (compose k g f) h)).
Proof.
  intro Bg. set (v := field "value" r).
  destruct (ok_shaped r) eqn:O.
  2:{ assert (R : forall f, mapOk r f h = (Normal r, h, []))
        by (intro; now rewrite mapOk_run, O).
      rewrite (bind_quiet _ _ _ _ _ (R f)), !R. apply agree_refl. }
  destruct (fn_body f [v] h) as [[[u|e] h1] l1] eqn:F.
  - pose proof (mapOk_call r f h _ _ _ O (call_run _ _ _ _ _ _ F)) as L1.
    simpl in L1.
    destruct (fn_body g [u] (S h1)) as [[c2 h2] l2] eqn:G1.
    destruct (fn_body g [u] h1) as [[c3 h3] l3] eqn:G2.
    pose proof (Bg [u] (S h1) h1) as Ag. rewrite G1, G2 in Ag. simpl in Ag.
    assert (L2 := mapOk_call
                    (VObject h1 [("type", VString "ok"); ("value", u)])
                    g (S h1) _ _ _ eq_refl (call_run _ _ _ _ _ _ G1)).
    simpl in L2.
    assert (C : call (compose k g f) [v] h =
                (c3, h3,
                 Called k [v]
                 :: (Called (fn_ref f) [v] :: l1)
                 ++ Called (fn_ref g) [u] :: l3)).
    { apply (call_run (compose k g f)). simpl.
      apply (bind_run _ _ _ _ _ _ _ _ _ (call_run _ _ _ _ _ _ F)
                      (call_run _ _ _ _ _ _ G2)). }
    rewrite (mapOk_call _ _ _ _ _ _ O C).
    unfold bind. rewrite L1, L2.
    destruct c2, c3; simpl in *; try contradiction.
    + unfold deep_equal in *. simpl. now rewrite Ag.
    + exact Ag.
  - pose proof (mapOk_call r f h _ _ _ O (call_run _ _ _ _ _ _ F)) as L1.
    simpl in L1.
    assert (C : call (compose k g f) [v] h =
                (Abrupt e, h1,
                 Called k [v] :: Called (fn_ref f) [v] :: l1)).
    { apply (call_run (compose k g f)). simpl.
      apply (bind_abrupt _ _ _ _ _ _ (call_run _ _ _ _ _ _ F)). }
    rewrite (mapOk_call _ _ _ _ _ _ O C).
    rewrite (bind_abrupt _ _ _ _ _ _ L1). apply agree_refl.
Qed.

(** C9. The four transformers are total on arbitrary input: on a value
    that the guard of their channel rejects ([null], a primitive, a
    malformed record, a record of another variant), [mapOk] and
    [flatMapOk], and likewise [mapErr] and [flatMapErr], return that
    very value; they do not throw and do not call the mapper. *)
Theorem transformers_pass_through v f :
  (returns (isOk v None) false \/ lacks "ok" (Some "value") v ->
   returns (mapOk v f) v /\ returns (flatMapOk v f) v) /\
  (returns (isErr v None) false \/ lacks "err" (Some "error") v ->
   returns (mapErr v f) v /\ returns (flatMapErr v f) v).
Proof.
  split; intro H.
  - apply not_ok_shape in H. split; intro h.
    + now rewrite mapOk_run, H.
    + now rewrite flatMapOk_run, H.
  - apply not_err_shape in H. split; intro h.
    + now rewrite mapErr_run, H.
    + now rewrite flatMapErr_run, H.
Qed.

Lemma transformers_pass_through_witness :
  (lacks "ok" (Some "value") VNull /\
   returns (mapOk VNull (tripwire 7)) VNull /\
   returns (flatMapOk VNull (tripwire 7)) VNull) /\
  (returns (isErr (VObject 3 [("type", VString "err")]) None) false /\
   returns (mapErr (VObject 3 [("type", VString "err")]) (tripwire 7))
           (VObject 3 [("type", VString "err")]) /\
   returns (flatMapErr (VObject 3 [("type", VString "err")]) (tripwire 7))
           (VObject 3 [("type", VString "err")])).
Proof.
  assert (L : lacks "ok" (Some "value") VNull) by constructor.
  assert (E : returns (isErr (VObject 3 [("type", VString "err")]) None) false)
    by (intro h; reflexivity).
  split.
  - exact (conj L (proj1 (transformers_pass_through VNull (tripwire 7))
                         (or_intror L))).
  - exact (conj E (proj2 (transformers_pass_through _ (tripwire 7))
                         (or_introl E))).
Defined.

(** C5. [mapOk] satisfies the functor laws and is the identity outside
    the success channel.  Composition: mapping [f] and then [g] agrees
    with mapping [x => g(f(x))], for every input and every [f] and [g]
    (both return deep-equal results or both throw deep-equal values;
    [g] is a function of its argument, not of the allocator).
    Identity: mapping [x => x] over an outcome gives a record with the
    same fields as the outcome.  Pass-through: on an [Err], a [Loading]
    or a [NotAsked], [mapOk] returns its input itself and does not call
    the mapper. *)
Theorem mapOk_functor_laws :
  (forall r f g k h,
     allocation_blind g ->
     agree (result_of ((r1 <- mapOk r f ;; mapOk r1 g) h))
           (result_of (mapOk r (compose k g f) h))) /\
  (forall r k h,
     is_RemoteResult r ->
     exists r', result_of (mapOk r (identity k) h) = Normal r' /\
                same_record r' r) /\
  (forall r f,
     returns (isErr r None) true \/ returns (isLoading r) true \/
     returns (isNotAsked r) true ->
     returns (mapOk r f) r).
Proof.
  split; [| split].
  - intros. now apply mapOk_compose.
  - intros r k h [_ [ref v | ref e] | ref | ref];
      eexists; split; reflexivity.
  - intros r f H h. rewrite mapOk_run.
    assert (O : ok_shaped r = false); [| now rewrite O].
    destruct H as [E | W].
    + apply isErr_returns in E. apply andb_true_iff in E as [T _].
      apply (other_tag_not_ok _ _ T). discriminate.
    + now apply waiting_shape.
Qed.

Lemma mapOk_functor_laws_witness :
  (allocation_blind (wrap 2) /\
   agree
     (result_of
        ((r1 <- mapOk (VObject 0 [("type", VString "ok"); ("value", VNull)])
                      (double 1) ;;
          mapOk r1 (wrap 2)) 5))
     (result_of
        (mapOk (VObject 0 [("type", VString "ok"); ("value", VNull)])
               (compose 3 (wrap 2) (double 1)) 5))) /\
  (is_RemoteResult (VObject 0 [("type", VString "ok"); ("value", VNull)]) /\
   exists r',
     result_of (mapOk (VObject 0 [("type", VString "ok"); ("value", VNull)])
                      (identity 4) 5) = Normal r' /\
     same_record r' (VObject 0 [("type", VString "ok"); ("value", VNull)])) /\
  (returns (isLoading (VObject 0 [("type", VString "loading")])) true /\
   returns (mapOk (VObject 0 [("type", VString "loading")]) (tripwire 7))
           (VObject 0 [("type", VString "loading")])).
Proof.
  pose proof mapOk_functor_laws as (Hcomp & Hid & Hpass).
  assert (B : allocation_blind (wrap 2))
    by (intros args h h'; reflexivity).
  assert (R : is_RemoteResult
                (VObject 0 [("type", VString "ok"); ("value", VNull)]))
    by (apply Remote_Result, Result_Ok).
  assert (L : returns (isLoading (VObject 0 [("type", VString "loading")]))
                      true)
    by (intro h; reflexivity).
  split; [exact (conj B (Hcomp _ (double 1) (wrap 2) 3 5 B)) |].
  split; [exact (conj R (Hid _ 4 5 R)) |].
  exact (conj L (Hpass _ (tripwire 7) (or_intror (or_introl L)))).
Defined.

(** C4. [flatMapOk] satisfies the monad laws.  Left identity:
    [flatMapOk] of the record [Ok(v)] and [f] runs as the call [f(v)]
    (same result, same allocations, same call log), whether the record
    is given or built on the spot.  Right identity: [flatMapOk(r, Ok)]
    on a Result [r] gives a record with the same fields as [r].
    Associativity: chaining [f] then [g] gives the result (and leaves
    the allocator) of chaining [x => flatMapOk(f(x), g)], for every
    input and every [f] and [g]. *)
Theorem flatMapOk_monad_laws :
  (forall ref v f h,
     flatMapOk (VObject ref [("type", VString "ok"); ("value", v)]) f h =
     call f [v] h) /\
  (forall v f h,
     (r <- Ok v ;; flatMapOk r f) h = (_ <- Ok v ;; call f [v]) h) /\
  (forall r k h,
     is_Result r ->
     exists r', result_of (flatMapOk r (Ok_fn k) h) = Normal r' /\
                same_record r' r) /\
  (forall r f g k h,
     fst ((r1 <- flatMapOk r f ;; flatMapOk r1 g) h) =
     fst (flatMapOk r (then_flatMapOk k f g) h)).
Proof.
  split; [| split; [| split]].
  - intros ref v f h. now rewrite flatMapOk_run.
  - intros v f h.
    rewrite !(bind_quiet _ _ _ _ _ (Ok_run v h)).
    now rewrite flatMapOk_run.
  - intros r k h [ref v | ref e]; eexists; split; reflexivity.
  - intros r f g k h. rewrite (flatMapOk_run r (then_flatMapOk k f g)).
    destruct (ok_shaped r) eqn:O.
    + unfold bind at 1. rewrite flatMapOk_run, O.
      unfold then_flatMapOk, call at 2; simpl. unfold bind, arg0; simpl.
      destruct (call f [field "value" r] h) as [[[y|e] h1] l1];
        [| reflexivity].
      now destruct (flatMapOk y g h1) as [[c2 h2] l2].
    + assert (R : forall f, flatMapOk r f h = (Normal r, h, []))
        by (intro; now rewrite flatMapOk_run, O).
      now rewrite (bind_quiet _ _ _ _ _ (R f)), R.
Qed.

Lemma flatMapOk_monad_laws_witness :
  is_Result (VObject 0 [("type", VString "err"); ("error", VString "net")]) /\
  exists r',
    result_of
      (flatMapOk (VObject 0 [("type", VString "err"); ("error", VString "net")])
                 (Ok_fn 4) 5) = Normal r' /\
    same_record r'
      (VObject 0 [("type", VString "err"); ("error", VString "net")]).
Proof.
  assert (R : is_Result (VObject 0 [("type", VString "err");
                                    ("error", VString "net")]))
    by apply Result_Err.
  exact (conj R (proj1 (proj2 (proj2 flatMapOk_monad_laws)) _ 4 5 R)).
Defined.

(** C10. [getOrElse] is [unwrapOr]: on every input and default the two
    run alike; they return the payload of an [Ok] and the default on
    every other input, without throwing. *)
Theorem getOrElse_is_unwrapOr r d :
  (forall h, getOrElse r d h = unwrapOr r d h) /\
  (returns (isOk r None) true -> returns (unwrapOr r d) (field "value" r)) /\
  (forall ref v,
     returns (unwrapOr (VObject ref [("type", VString "ok"); ("value", v)]) d)
             v) /\
  (returns (isOk r None) false -> returns (unwrapOr r d) d).
Proof.
  split; [| split; [| split]].
  - reflexivity.
  - intros O h. apply isOk_returns in O. now rewrite unwrapOr_run, O.
  - intros ref v h. now rewrite unwrapOr_run.
  - intros O h. apply isOk_returns in O. now rewrite unwrapOr_run, O.
Qed.

Lemma getOrElse_is_unwrapOr_witness :
  (returns (isOk (VObject 0 [("type", VString "ok"); ("value", VNumber 1)])
                 None) true /\
   returns (unwrapOr (VObject 0 [("type", VString "ok"); ("value", VNumber 1)])
                     VNull) (VNumber 1)) /\
  (returns (isOk (VString "ok") None) false /\
   returns (unwrapOr (VString "ok") VNull) VNull).
Proof.
  assert (O : returns (isOk (VObject 0 [("type", VString "ok");
                                        ("value", VNumber 1)]) None) true)
    by (intro h; reflexivity).
  assert (N : returns (isOk (VString "ok") None) false)
    by (intro h; reflexivity).
  split.
  - exact (conj O (proj1 (proj2 (getOrElse_is_unwrapOr _ VNull)) O)).
  - exact (conj N (proj2 (proj2 (proj2 (getOrElse_is_unwrapOr _ VNull))) N)).
Defined.

(** C6. Misuse is signalled by throwing.  On a [Loading] and on a
    [NotAsked], [fold], [bimap] and [toPromise] throw a new [Error]
    (they return nothing, in particular no [Err], and call no handler);
    [unwrap] throws a new [Error] on every input that is not an [Ok]. *)
Theorem misuse_throws :
  (forall r onOk onErr h,
     returns (isLoading r) true \/ returns (isNotAsked r) true ->
     fold r onOk onErr h = throw_new_Error "Invalid result type" h /\
     bimap r onOk onErr h = throw_new_Error "Invalid result type" h /\
     toPromise r h =
       throw_new_Error "Cannot convert Loading or NotAsked to Promise" h) /\
  (forall r h,
     returns (isOk r None) false ->
     unwrap r h = throw_new_Error "Tried to unwrap a non-ok result" h) /\
  (forall A message, throws (@throw_new_Error A message)).
Proof.
  split; [| split].
  - intros r onOk onErr h W. apply waiting_shape in W as [O E].
    now rewrite fold_run, bimap_run, toPromise_run, O, E.
  - intros r h O. apply isOk_returns in O. now rewrite unwrap_run, O.
  - intros. apply throw_new_Error_throws.
Qed.

Lemma misuse_throws_witness :
  (returns (isNotAsked (VObject 0 [("type", VString "not-asked")])) true /\
   result_of (fold (VObject 0 [("type", VString "not-asked")])
                   (identity 1) (identity 2) 5) =
   Abrupt (VObject 5 [("name", VString "Error");
                      ("message", VString "Invalid result type")])) /\
  (returns (isOk (VObject 0 [("type", VString "err"); ("error", VNull)])
                 None) false /\
   result_of (unwrap (VObject 0 [("type", VString "err"); ("error", VNull)]) 5)
   = Abrupt (VObject 5 [("name", VString "Error");
                        ("message",
                         VString "Tried to unwrap a non-ok result")])).
Proof.
  pose proof misuse_throws as (Hwait & Hunwrap & _).
  assert (N : returns (isNotAsked (VObject 0 [("type", VString "not-asked")]))
                      true)
    by (intro h; reflexivity).
  assert (O : returns (isOk (VObject 0 [("type", VString "err");
                                        ("error", VNull)]) None) false)
    by (intro h; reflexivity).
  split.
  - split; [exact N |].
    now rewrite (proj1 (Hwait _ (identity 1) (identity 2) 5 (or_intror N))).
  - split; [exact O |].
    now rewrite (Hunwrap _ 5 O).
Defined.

End Combinators.

(** ** The conversion adapters *)

Section Adapters.
Import JS Result Shape Closures.

Lemma Ok_is_not_Err v e h : Ok v h <> Err e h.
Proof. discriminate. Qed.

Lemma fromNullable_run v e h :
  fromNullable v e h = if loose_eq_null v then Err e h else Ok v h.
Proof. unfold fromNullable. now destruct (loose_eq_null v). Qed.

Lemma loose_eq_null_iff v :
  loose_eq_null v = true <-> v = VNull \/ v = VUndefined.
Proof.
  destruct v; simpl; split; intro H; try discriminate; auto;
    destruct H; discriminate.
Qed.

(** C7. [fromNullable] keeps [0], the empty string and [false]: each
    gives [Ok] of that value; it gives [Err(e)] exactly when the value
    is [null] or [undefined], and [Ok] of the value otherwise.
    [fromFalsy] gives [Err(e)] on every falsy value, among them [0],
    [-0], the empty string, [false], [null], [undefined] and [NaN], and
    [Ok(v)] on every truthy [v]. *)
Theorem fromNullable_fromFalsy_boundary :
  (forall e h,
     fromNullable (VNumber 0) e h = Ok (VNumber 0) h /\
     fromNullable (VString "") e h = Ok (VString "") h /\
     fromNullable (VBool false) e h = Ok (VBool false) h) /\
  (forall v e h,
     fromNullable v e h = Err e h <-> v = VNull \/ v = VUndefined) /\
  (forall v e h,
     fromNullable v e h = Ok v h <-> v <> VNull /\ v <> VUndefined) /\
  (forall v e h,
     fromFalsy v e h = if ToBoolean v then Ok v h else Err e h) /\
  (forall e h,
     fromFalsy (VNumber 0) e h = Err e h /\
     fromFalsy (VNumber (-0)) e h = Err e h /\
     fromFalsy (VString "") e h = Err e h /\
     fromFalsy (VBool false) e h = Err e h /\
     fromFalsy VNull e h = Err e h /\
     fromFalsy VUndefined e h = Err e h /\
     fromFalsy (VNumber NaN) e h = Err e h) /\
  (forall e h,
     fromFalsy (VNumber 1) e h = Ok (VNumber 1) h /\
     fromFalsy (VString "hello") e h = Ok (VString "hello") h /\
     fromFalsy (VObject 0 []) e h = Ok (VObject 0 []) h).
Proof.
  split; [| split; [| split; [| split; [| split]]]].
  - intros e h. repeat split.
  - intros v e h. rewrite fromNullable_run, <- loose_eq_null_iff.
    destruct (loose_eq_null v); split; intro H;
      reflexivity || discriminate.
  - intros v e h. rewrite fromNullable_run.
    assert (N : loose_eq_null v = false <-> v <> VNull /\ v <> VUndefined).
    { destruct v; simpl; split; try discriminate; intuition congruence. }
    rewrite <- N.
    destruct (loose_eq_null v); split; intro H;
      reflexivity || discriminate.
  - intros v e h. unfold fromFalsy. now destruct (ToBoolean v).
  - intros e h. repeat split.
  - intros e h. repeat split.
Qed.

Lemma fromNullable_fromFalsy_boundary_witness :
  fromNullable VNull (VString "e") 0 = Err (VString "e") 0 /\
  fromNullable (VNumber 0) (VString "e") 0 = Ok (VNumber 0) 0.
Proof.
  pose proof fromNullable_fromFalsy_boundary as (_ & Herr & Hok & _).
  split.
  - apply Herr. now left.
  - apply Hok. split; discriminate.
Defined.

(** C8. [fromNullable] and [fromNullish] behave alike: on every value
    and error they run to the same result; both give [Err(e)] when the
    value is [null] or [undefined] and [Ok(v)] otherwise, and no other
    value gives [Err(e)]. *)
Theorem fromNullable_is_fromNullish :
  (forall v e h, fromNullable v e h = fromNullish v e h) /\
  (forall v e h,
     v = VNull \/ v = VUndefined ->
     fromNullable v e h = Err e h /\ fromNullish v e h = Err e h) /\
  (forall v e h,
     v <> VNull -> v <> VUndefined ->
     fromNullable v e h = Ok v h /\ fromNullish v e h = Ok v h) /\
  (forall v e h,
     fromNullish v e h = Err e h -> v = VNull \/ v = VUndefined).
Proof.
  split; [| split; [| split]].
  - intros v e h. unfold fromNullable, fromNullish.
    now destruct (loose_eq_null v).
  - intros v e h [-> | ->]; now split.
  - intros v e h N U. destruct v; try (now split); congruence.
  - intros v e h. unfold fromNullish. rewrite <- loose_eq_null_iff.
    destruct (loose_eq_null v); [reflexivity |].
    intro H. now apply Ok_is_not_Err in H.
Qed.

Lemma fromNullable_is_fromNullish_witness :
  (fromNullable VUndefined (VString "required") 0
     = Err (VString "required") 0 /\
   fromNullish VUndefined (VString "required") 0
     = Err (VString "required") 0) /\
  (fromNullable (VBool false) VNull 0 = Ok (VBool false) 0 /\
   fromNullish (VBool false) VNull 0 = Ok (VBool false) 0).
Proof.
  pose proof fromNullable_is_fromNullish as (_ & Herr & Hok & _).
  split.
  - apply Herr. now right.
  - apply Hok; discriminate.
Defined.

End Adapters.

(** ** Equality *)

Section Equality.
Import JS Result Shape Closures.

Lemma isRemoteResult_None v h :
  isRemoteResult v None None h = (Normal (remote_shaped v), h, []).
Proof.
  rewrite isRemoteResult_run, isResult_run.
  destruct (has_tag "loading" v || has_tag "not-asked" v); [reflexivity|].
  destruct (ok_shaped v); [reflexivity|].
  now destruct (err_shaped v).
Qed.

Lemma isRemoteResult_returns v b :
  returns (isRemoteResult v None None) b <-> remote_shaped v = b.
Proof.
  split.
  - intro R. specialize (R 0). rewrite isRemoteResult_None in R. congruence.
  - intros <- h. apply isRemoteResult_None.
Qed.

Lemma remote_shaped_object v :
  remote_shaped v = true -> typeof v = "object" /\ v <> VNull.
Proof. destruct v; simpl; try discriminate. now split. Qed.

Lemma compare_field_run cmp a b k h :
  remote_shaped a = true -> remote_shaped b = true ->
  compare_field cmp a b k h =
  match cmp with
  | Some f => call f [field k a; field k b] h
  | None => (Normal (strict_eq (field k a) (field k b)), h, [])
  end.
Proof.
  intros Ra Rb.
  apply remote_shaped_object in Ra as [Oa Na], Rb as [Ob Nb].
  unfold compare_field. destruct cmp as [f|];
    rewrite (bind_quiet _ _ _ _ _ (get_field a k h Oa Na)),
            (bind_quiet _ _ _ _ _ (get_field b k h Ob Nb));
    reflexivity.
Qed.

Lemma equals_run a b cmp h :
  equals a b cmp h =
  if negb (remote_shaped a) || negb (remote_shaped b)
  then (Normal false, h, [])
  else if negb (strict_eq (field "type" a) (field "type" b))
  then (Normal false, h, [])
  else if ok_shaped a && ok_shaped b
  then compare_field cmp a b "value" h
  else if err_shaped a && err_shaped b
  then compare_field cmp a b "error" h
  else (Normal true, h, []).
Proof.
  assert (I : or_else (not_ (isRemoteResult a None None))
                      (not_ (isRemoteResult b None None)) h =
              (Normal (negb (remote_shaped a) || negb (remote_shaped b)),
               h, [])).
  { rewrite (or_else_quiet _ _ _ _ _
               (not_quiet _ _ _ _ (isRemoteResult_None a h))).
    destruct (remote_shaped a); [| reflexivity].
    apply (not_quiet _ _ _ _ (isRemoteResult_None b h)). }
  unfold equals. rewrite (bind_quiet _ _ _ _ _ I).
  destruct (remote_shaped a) eqn:Ra; [| reflexivity].
  destruct (remote_shaped b) eqn:Rb; [| reflexivity].
  destruct (remote_shaped_object _ Ra) as [Oa Na].
  destruct (remote_shaped_object _ Rb) as [Ob Nb].
  cbn [negb orb].
  rewrite (bind_quiet _ _ _ _ _ (get_field a "type" h Oa Na)),
          (bind_quiet _ _ _ _ _ (get_field b "type" h Ob Nb)).
  destruct (negb (strict_eq (field "type" a) (field "type" b)));
    [reflexivity |].
  assert (O : and_then (isOk a None) (isOk b None) h =
              (Normal (ok_shaped a && ok_shaped b), h, [])).
  { rewrite (and_then_quiet _ _ _ _ _ (isOk_None a h)).
    destruct (ok_shaped a); [apply isOk_None | reflexivity]. }
  rewrite (bind_quiet _ _ _ _ _ O).
  destruct (ok_shaped a && ok_shaped b); [reflexivity |].
  assert (E : and_then (isErr a None) (isErr b None) h =
              (Normal (err_shaped a && err_shaped b), h, [])).
  { rewrite (and_then_quiet _ _ _ _ _ (isErr_None a h)).
    destruct (err_shaped a); [apply isErr_None | reflexivity]. }
  rewrite (bind_quiet _ _ _ _ _ E).
  now destruct (err_shaped a && err_shaped b).
Qed.

Lemma equals_same_tag a b cmp h tag :
  has_tag tag a = true -> has_tag tag b = true ->
  remote_shaped a = true -> remote_shaped b = true ->
  equals a b cmp h =
  if ok_shaped a && ok_shaped b then compare_field cmp a b "value" h
  else if err_shaped a && err_shaped b then compare_field cmp a b "error" h
  else (Normal true, h, []).
Proof.
  intros Ta Tb Ra Rb. rewrite equals_run, Ra, Rb.
  rewrite (has_tag_field _ _ Ta), (has_tag_field _ _ Tb). simpl.
  now rewrite String.eqb_refl.
Qed.

(** C1. [equals] returns [false], and does not throw, when [a] or [b]
    fails the [isRemoteResult] guard; it returns [false] when the two
    tags differ; on two [Ok]s and on two [Err]s it is the call of the
    comparator on the two payloads when one is supplied, and the strict
    equality of the two payloads otherwise; on two [Loading]s and on two
    [NotAsked]s it returns [true]. *)
Theorem equals_spec :
  (forall a b cmp,
     returns (isRemoteResult a None None) false \/
     returns (isRemoteResult b None None) false ->
     returns (equals a b cmp) false) /\
  (forall a b cmp ta tb,
     has_tag ta a = true -> has_tag tb b = true -> ta <> tb ->
     returns (equals a b cmp) false) /\
  (forall a b h,
     returns (isOk a None) true -> returns (isOk b None) true ->
     (forall f, equals a b (Some f) h =
                call f [field "value" a; field "value" b] h) /\
     equals a b None h =
       (Normal (strict_eq (field "value" a) (field "value" b)), h, [])) /\
  (forall a b h,
     returns (isErr a None) true -> returns (isErr b None) true ->
     (forall f, equals a b (Some f) h =
                call f [field "error" a; field "error" b] h) /\
     equals a b None h =
       (Normal (strict_eq (field "error" a) (field "error" b)), h, [])) /\
  (forall a b cmp,
     (returns (isLoading a) true /\ returns (isLoading b) true) \/
     (returns (isNotAsked a) true /\ returns (isNotAsked b) true) ->
     returns (equals a b cmp) true).
Proof.
  split; [| split; [| split; [| split]]].
  - intros a b cmp H h. rewrite equals_run.
    destruct H as [H|H]; apply isRemoteResult_returns in H; rewrite H;
      now rewrite ?orb_true_r.
  - intros a b cmp ta tb Ta Tb N h. rewrite equals_run.
    destruct (negb (remote_shaped a) || negb (remote_shaped b));
      [reflexivity |].
    rewrite (has_tag_field _ _ Ta), (has_tag_field _ _ Tb). simpl.
    destruct (String.eqb_spec ta tb); [contradiction | reflexivity].
  - intros a b h Oa Ob.
    apply isOk_returns in Oa, Ob.
    assert (Ra : remote_shaped a = true) by (rewrite Oa; apply orb_true_r).
    assert (Rb : remote_shaped b = true) by (rewrite Ob; apply orb_true_r).
    assert (E : forall cmp, equals a b cmp h = compare_field cmp a b "value" h).
    { intro cmp. rewrite (equals_same_tag a b cmp h "ok"), ?Oa, ?Ob; trivial.
      - now apply andb_true_iff in Oa.
      - now apply andb_true_iff in Ob. }
    split; [intro f |]; rewrite E; now apply compare_field_run.
  - intros a b h Ea Eb.
    apply isErr_returns in Ea, Eb.
    assert (Ra : remote_shaped a = true)
      by (rewrite Ea; now rewrite !orb_true_r).
    assert (Rb : remote_shaped b = true)
      by (rewrite Eb; now rewrite !orb_true_r).
    assert (Ta : has_tag "err" a = true) by (now apply andb_true_iff in Ea).
    assert (Oa : ok_shaped a = false)
      by (apply (other_tag_not_ok _ _ Ta); discriminate).
    assert (E : forall cmp, equals a b cmp h = compare_field cmp a b "error" h).
    { intro cmp.
      rewrite (equals_same_tag a b cmp h "err"), ?Oa, ?Ea, ?Eb; trivial.
      now apply andb_true_iff in Eb. }
    split; [intro f |]; rewrite E; now apply compare_field_run.
  - intros a b cmp H h.
    assert (exists tag, tag <> "ok" /\ tag <> "err" /\
                        has_tag tag a = true /\ has_tag tag b = true /\
                        remote_shaped a = true /\ remote_shaped b = true)
      as (tag & Nok & Nerr & Ta & Tb & Ra & Rb).
    { destruct H as [[La Lb] | [Na Nb]].
      - apply isLoading_returns in La, Lb. exists "loading".
        rewrite La, Lb. repeat split; discriminate || reflexivity.
      - apply isNotAsked_returns in Na, Nb. exists "not-asked".
        rewrite Na, Nb. repeat split; try discriminate;
          now rewrite orb_true_r. }
    rewrite (equals_same_tag a b cmp h tag Ta Tb Ra Rb).
    now rewrite (other_tag_not_ok _ _ Ta Nok), (other_tag_not_err _ _ Ta Nerr).
Qed.

Lemma equals_spec_witness :
  (returns (isRemoteResult (VNumber 42) None None) false /\
   returns (equals (VNumber 42) (VObject 0 [("type", VString "not-asked")])
                   (Some (tripwire 7))) false) /\
  (returns (equals (VObject 0 [("type", VString "ok"); ("value", VNull)])
                   (VObject 1 [("type", VString "err"); ("error", VNull)])
                   (Some (tripwire 7))) false) /\
  (equals (VObject 0 [("type", VString "ok"); ("value", VObject 2 [])])
          (VObject 1 [("type", VString "ok"); ("value", VObject 3 [])])
          None 4 = (Normal false, 4, []) /\
   equals (VObject 0 [("type", VString "ok"); ("value", VObject 2 [])])
          (VObject 1 [("type", VString "ok"); ("value", VObject 3 [])])
          (Some (same_typeof 7)) 4
   = (Normal true, 4, [Called 7 [VObject 2 []; VObject 3 []]])) /\
  (equals (VObject 0 [("type", VString "err"); ("error", VNumber NaN)])
          (VObject 0 [("type", VString "err"); ("error", VNumber NaN)])
          None 4 = (Normal false, 4, [])) /\
  (returns (equals (VObject 0 [("type", VString "loading")])
                   (VObject 1 [("type", VString "loading")])
                   (Some (tripwire 7))) true).
Proof.
  pose proof equals_spec as (Hbad & Htags & Hok & Herr & Hwait).
  split; [| split; [| split; [| split]]].
  - assert (R : returns (isRemoteResult (VNumber 42) None None) false)
      by (intro h; reflexivity).
    exact (conj R (Hbad _ _ _ (or_introl R))).
  - apply (Htags _ _ _ "ok" "err"); reflexivity || discriminate.
  - split.
    + apply (proj2 (Hok (VObject 0 [("type", VString "ok");
                                    ("value", VObject 2 [])])
                        (VObject 1 [("type", VString "ok");
                                    ("value", VObject 3 [])]) 4
                        (fun h => eq_refl) (fun h => eq_refl))).
    + apply (proj1 (Hok (VObject 0 [("type", VString "ok");
                                    ("value", VObject 2 [])])
                        (VObject 1 [("type", VString "ok");
                                    ("value", VObject 3 [])]) 4
                        (fun h => eq_refl) (fun h => eq_refl))
                   (same_typeof 7)).
  - apply (proj2 (Herr (VObject 0 [("type", VString "err");
                                   ("error", VNumber NaN)])
                       (VObject 0 [("type", VString "err");
                                   ("error", VNumber NaN)]) 4
                       (fun h => eq_refl) (fun h => eq_refl))).
  - apply Hwait. left. split; intro h; reflexivity.
Defined.

End Equality.

(** ** The documented scenarios, run *)

Section Scenarios.
Import JS Result Shape Closures.

(** [mapOk(Ok(42), x => x * 2)] is [Ok(84)]; the mapper is called once. *)
Example mapOk_doubles :
  (r <- Ok (VNumber 42) ;; mapOk r (double 1)) 0 =
  (Normal (VObject 1 [("type", VString "ok"); ("value", VNumber 84)]), 2,
   [Called 1 [VNumber 42]]).
Proof. reflexivity. Qed.

(** [flatMapErr(Err("net"), e => e === "net" ? Ok("cached") : Err(e))]
    is [Ok("cached")]. *)
Example flatMapErr_recovers :
  result_of ((r <- Err (VString "net") ;; flatMapErr r (recover 1)) 0) =
  Normal (VObject 1 [("type", VString "ok"); ("value", VString "cached")]).
Proof. reflexivity. Qed.

(** [equals(Ok({}), Ok({}))] is [false]: two objects, two identities. *)
Example equals_is_by_identity :
  result_of (equals_of_two_empty_objects None 0) = Normal false.
Proof. reflexivity. Qed.

(** With a comparator that ignores identity it is [true]. *)
Example equals_with_comparator :
  result_of (equals_of_two_empty_objects (Some (same_typeof 9)) 0) =
  Normal true.
Proof. reflexivity. Qed.

(** A constructed value satisfies exactly one of the four guards. *)
Example variants_are_exclusive v h :
  (r <- Ok v ;; a <- isOk r None ;; b <- isErr r None ;;
   c <- isLoading r ;; d <- isNotAsked r ;; ret [a; b; c; d]) h =
  (Normal [true; false; false; false], S h, []) /\
  (r <- Err v ;; a <- isOk r None ;; b <- isErr r None ;;
   c <- isLoading r ;; d <- isNotAsked r ;; ret [a; b; c; d]) h =
  (Normal [false; true; false; false], S h, []) /\
  (r <- Loading ;; a <- isOk r None ;; b <- isErr r None ;;
   c <- isLoading r ;; d <- isNotAsked r ;; ret [a; b; c; d]) h =
  (Normal [false; false; true; false], S h, []) /\
  (r <- NotAsked ;; a <- isOk r None ;; b <- isErr r None ;;
   c <- isLoading r ;; d <- isNotAsked r ;; ret [a; b; c; d]) h =
  (Normal [false; false; false; true], S h, []).
Proof. repeat split. Qed.

(** [toPromise] fulfils with the value of an [Ok] and rejects with the
    error of an [Err]. *)
Example toPromise_settles v h :
  (r <- Ok v ;; toPromise r) h = (Normal (Fulfilled v), S h, []) /\
  (r <- Err v ;; toPromise r) h = (Normal (Rejected v), S h, []).
Proof. split; reflexivity. Qed.

End Scenarios.

(** ** The rest of the library: dispatch *)

Section Dispatch.
Import JS Result Shape Closures.

Lemma match_run r m h :
  match_ r m h =
  if ok_shaped r then call (matchers_ok m) [field "value" r] h
  else if err_shaped r then call (matchers_err m) [field "error" r] h
  else if has_tag "loading" r then call (matchers_loading m) [] h
  else if has_tag "not-asked" r then call (matchers_notAsked m) [] h
  else throw_new_Error "Invalid result type" h.
Proof.
  unfold match_. rewrite (bind_quiet _ _ _ _ _ (isOk_None r h)).
  destruct (ok_shaped r) eqn:O.
  { now rewrite (bind_quiet _ _ _ _ _ (get_value r h O)). }
  rewrite (bind_quiet _ _ _ _ _ (isErr_None r h)).
  destruct (err_shaped r) eqn:E.
  { now rewrite (bind_quiet _ _ _ _ _ (get_error r h E)). }
  rewrite (bind_quiet _ _ _ _ _ (isLoading_run r h)).
  destruct (has_tag "loading" r); [reflexivity |].
  rewrite (bind_quiet _ _ _ _ _ (isNotAsked_run r h)).
  now destruct (has_tag "not-asked" r).
Qed.

Lemma foldRemote_run r m h : foldRemote r m h = match_ r (as_Matchers m) h.
Proof. reflexivity. Qed.

(** X1. [match] calls exactly one handler, chosen by the tag, and no
    other: on an [Ok] its run is the call of the [ok] handler on the
    payload, on an [Err] the call of the [err] handler on the error, on
    a [Loading] or a [NotAsked] the call of that handler without
    argument.  On any value that [isRemoteResult] rejects it throws a
    new [Error] and calls no handler.  [foldRemote] runs as [match] with
    its handlers renamed. *)
Theorem match_calls_one_handler r m h :
  (returns (isOk r None) true ->
   match_ r m h = call (matchers_ok m) [field "value" r] h) /\
  (returns (isErr r None) true ->
   match_ r m h = call (matchers_err m) [field "error" r] h) /\
  (returns (isLoading r) true ->
   match_ r m h = call (matchers_loading m) [] h) /\
  (returns (isNotAsked r) true ->
   match_ r m h = call (matchers_notAsked m) [] h) /\
  (returns (isRemoteResult r None None) false ->
   match_ r m h = throw_new_Error "Invalid result type" h) /\
  (forall rm, foldRemote r rm h = match_ r (as_Matchers rm) h).
Proof.
  rewrite match_run.
  split; [| split; [| split; [| split; [| split]]]].
  - intro O. apply isOk_returns in O. now rewrite O.
  - intro E. apply isErr_returns in E.
    assert (T : has_tag "err" r = true) by (now apply andb_true_iff in E).
    rewrite (other_tag_not_ok _ _ T) by discriminate. now rewrite E.
  - intro L. destruct (waiting_shape r (or_introl L)) as [O E].
    apply isLoading_returns in L. now rewrite O, E, L.
  - intro N. destruct (waiting_shape r (or_intror N)) as [O E].
    apply isNotAsked_returns in N. rewrite O, E, N.
    now destruct (has_tag "loading" r) eqn:L;
      [discriminate (has_tag_functional _ _ _ L N) |].
  - intro R. apply isRemoteResult_returns in R.
    destruct (has_tag "loading" r), (has_tag "not-asked" r),
      (ok_shaped r), (err_shaped r); try discriminate R; reflexivity.
  - intro rm. apply foldRemote_run.
Qed.

Lemma match_calls_one_handler_witness :
  (returns (isOk (VObject 0 [("type", VString "ok"); ("value", VNumber 1)])
                 None) true /\
   match_ (VObject 0 [("type", VString "ok"); ("value", VNumber 1)])
          (mkMatchers (double 1) (tripwire 2) (tripwire 3) (tripwire 4)) 5 =
   (Normal (VNumber 2), 5, [Called 1 [VNumber 1]])) /\
  (returns (isNotAsked (VObject 0 [("type", VString "not-asked")])) true /\
   match_ (VObject 0 [("type", VString "not-asked")])
          (mkMatchers (tripwire 1) (tripwire 2) (tripwire 3)
                      (constant 4 VNull)) 5 =
   (Normal VNull, 5, [Called 4 []])) /\
  (returns (isRemoteResult (VObject 0 [("type", VString "ok")]) None None)
           false /\
   log_of (match_ (VObject 0 [("type", VString "ok")])
                  (mkMatchers (tripwire 1) (tripwire 2) (tripwire 3)
                              (tripwire 4)) 5) = []).
Proof.
  split; [| split].
  - assert (O : returns (isOk (VObject 0 [("type", VString "ok");
                                          ("value", VNumber 1)]) None) true)
      by (intro h; reflexivity).
    exact (conj O (proj1 (match_calls_one_handler _
             (mkMatchers (double 1) (tripwire 2) (tripwire 3) (tripwire 4)) 5)
             O)).
  - assert (N : returns (isNotAsked (VObject 0 [("type", VString "not-asked")]))
                        true)
      by (intro h; reflexivity).
    split; [exact N |].
    now rewrite (proj1 (proj2 (proj2 (proj2 (match_calls_one_handler _
             (mkMatchers (tripwire 1) (tripwire 2) (tripwire 3)
                         (constant 4 VNull)) 5)))) N).
  - assert (R : returns (isRemoteResult (VObject 0 [("type", VString "ok")])
                                        None None) false)
      by (intro h; reflexivity).
    split; [exact R |].
    now rewrite (proj1 (proj2 (proj2 (proj2 (proj2 (match_calls_one_handler _
             (mkMatchers (tripwire 1) (tripwire 2) (tripwire 3) (tripwire 4))
             5))))) R).
Defined.

Lemma isResult_None v h :
  isResult v None None h = (Normal (ok_shaped v || err_shaped v), h, []).
Proof.
  rewrite isResult_run. destruct (ok_shaped v); [reflexivity |].
  now destruct (err_shaped v).
Qed.

Lemma isResult_returns v b :
  returns (isResult v None None) b <-> ok_shaped v || err_shaped v = b.
Proof.
  split.
  - intro R. specialize (R 0). rewrite isResult_None in R. congruence.
  - intros <- h. apply isResult_None.
Qed.

(** X2. [fold] calls exactly one handler: on an [Ok] its run is the call
    of [onOk] on the payload, on an [Err] the call of [onErr] on the
    error; on every value that [isResult] accepts it runs as [match]
    with the same two handlers, whose [loading] and [notAsked] handlers
    are not called.  Folding a Result with the two constructors gives a
    record with the fields of the Result. *)
Theorem fold_calls_one_handler r h :
  (forall onOk onErr,
     returns (isOk r None) true ->
     fold r onOk onErr h = call onOk [field "value" r] h) /\
  (forall onOk onErr,
     returns (isErr r None) true ->
     fold r onOk onErr h = call onErr [field "error" r] h) /\
  (forall m,
     returns (isResult r None None) true ->
     fold r (matchers_ok m) (matchers_err m) h = match_ r m h) /\
  (forall k1 k2,
     is_Result r ->
     exists r', result_of (fold r (Ok_fn k1) (Err_fn k2) h) = Normal r' /\
                same_record r' r).
Proof.
  split; [| split; [| split]].
  - intros onOk onErr O. apply isOk_returns in O. now rewrite fold_run, O.
  - intros onOk onErr E. apply isErr_returns in E.
    assert (T : has_tag "err" r = true) by (now apply andb_true_iff in E).
    rewrite fold_run, (other_tag_not_ok _ _ T) by discriminate. now rewrite E.
  - intros m R. apply isResult_returns in R. rewrite fold_run, match_run.
    destruct (ok_shaped r); [reflexivity |].
    destruct (err_shaped r); [reflexivity | discriminate R].
  - intros k1 k2 [ref v | ref e]; eexists; split; reflexivity.
Qed.

Lemma fold_calls_one_handler_witness :
  (returns (isErr (VObject 0 [("type", VString "err"); ("error", VNumber 1)])
                  None) true /\
   fold (VObject 0 [("type", VString "err"); ("error", VNumber 1)])
        (tripwire 1) (double 2) 5 =
   (Normal (VNumber 2), 5, [Called 2 [VNumber 1]])) /\
  (is_Result (VObject 0 [("type", VString "err"); ("error", VNumber 1)]) /\
   exists r',
     result_of (fold (VObject 0 [("type", VString "err"); ("error", VNumber 1)])
                     (Ok_fn 1) (Err_fn 2) 5) = Normal r' /\
     same_record r'
       (VObject 0 [("type", VString "err"); ("error", VNumber 1)])).
Proof.
  pose proof (fold_calls_one_handler
                (VObject 0 [("type", VString "err"); ("error", VNumber 1)]) 5)
    as (_ & Herr & _ & Hid).
  assert (E : returns (isErr (VObject 0 [("type", VString "err");
                                         ("error", VNumber 1)]) None) true)
    by (intro h; reflexivity).
  assert (R : is_Result (VObject 0 [("type", VString "err");
                                    ("error", VNumber 1)]))
    by apply Result_Err.
  split.
  - exact (conj E (Herr (tripwire 1) (double 2) E)).
  - exact (conj R (Hid 1 2 R)).
Defined.

End Dispatch.

(** ** The rest of the library: the failure channel and [swap] *)

Section Channels.
Import JS Result Shape Closures.

Lemma Err_run e h :
  Err e h =
  (Normal (VObject h [("type", VString "err"); ("error", e)]), S h, []).
Proof. reflexivity. Qed.

Lemma swap_run r h :
  swap r h =
  if ok_shaped r then Err (field "value" r) h
  else if err_shaped r then Ok (field "error" r) h
  else (Normal r, h, []).
Proof.
  unfold swap. rewrite (bind_quiet _ _ _ _ _ (isOk_None r h)).
  destruct (ok_shaped r) eqn:O.
  { now rewrite (bind_quiet _ _ _ _ _ (get_value r h O)). }
  rewrite (bind_quiet _ _ _ _ _ (isErr_None r h)).
  destruct (err_shaped r) eqn:E; [| reflexivity].
  now rewrite (bind_quiet _ _ _ _ _ (get_error r h E)).
Qed.

(** X3. [swap] never throws and calls nothing.  It exchanges the two
    guards: [isOk] of the swapped value is [isErr] of the value, and
    [isErr] of the swapped value is [isOk] of the value, on every
    input.  A value that [isResult] rejects ([Loading], [NotAsked],
    malformed) is returned itself. *)
Theorem swap_exchanges_guards v h :
  result_of ((s <- swap v ;; isOk s None) h) = result_of (isErr v None h) /\
  result_of ((s <- swap v ;; isErr s None) h) = result_of (isOk v None h) /\
  log_of (swap v h) = [] /\
  (exists s, result_of (swap v h) = Normal s) /\
  (returns (isResult v None None) false -> returns (swap v) v).
Proof.
  assert (S1 : exists s h1,
             swap v h = (Normal s, h1, []) /\
             ok_shaped s = err_shaped v /\ err_shaped s = ok_shaped v).
  { rewrite swap_run. destruct (ok_shaped v) eqn:O.
    - rewrite (ok_shape_not_err _ O). now eexists _, _.
    - destruct (err_shaped v) eqn:E; now eexists _, _. }
  destruct S1 as (s & h1 & R & A & B).
  split; [| split; [| split; [| split]]].
  - now rewrite (bind_quiet _ _ _ _ _ R), isOk_None, isErr_None, A.
  - now rewrite (bind_quiet _ _ _ _ _ R), isOk_None, isErr_None, B.
  - now rewrite R.
  - exists s. now rewrite R.
  - intros N h'. apply isResult_returns in N.
    rewrite swap_run.
    destruct (ok_shaped v); [discriminate N |].
    destruct (err_shaped v); [discriminate N | reflexivity].
Qed.

Lemma swap_exchanges_guards_witness :
  returns (isResult (VObject 0 [("type", VString "loading")]) None None)
          false /\
  returns (swap (VObject 0 [("type", VString "loading")]))
          (VObject 0 [("type", VString "loading")]).
Proof.
  assert (N : returns (isResult (VObject 0 [("type", VString "loading")])
                                None None) false)
    by (intro h; reflexivity).
  exact (conj N (proj2 (proj2 (proj2 (proj2
           (swap_exchanges_guards _ 0)))) N)).
Defined.

(** X4. [swap] is an involution on outcomes: swapping twice gives a
    record with the fields of the outcome one started from. *)
Theorem swap_involution r h :
  is_RemoteResult r ->
  exists r', result_of ((s <- swap r ;; swap s) h) = Normal r' /\
             same_record r' r.
Proof.
  intros [_ [ref v | ref e] | ref | ref]; eexists; split; reflexivity.
Qed.

Lemma swap_involution_witness :
  is_RemoteResult (VObject 0 [("type", VString "err"); ("error", VNull)]) /\
  exists r',
    result_of ((s <- swap (VObject 0 [("type", VString "err");
                                      ("error", VNull)]) ;; swap s) 5)
      = Normal r' /\
    same_record r' (VObject 0 [("type", VString "err"); ("error", VNull)]).
Proof.
  assert (R : is_RemoteResult
                (VObject 0 [("type", VString "err"); ("error", VNull)]))
    by apply Remote_Result, Result_Err.
  exact (conj R (swap_involution _ 5 R)).
Defined.

Lemma mapErr_call r f h c h1 l1 :
  err_shaped r = true ->
  call f [field "error" r] h = (c, h1, l1) ->
  mapErr r f h =
  match c with
  | Normal u =>
      (Normal (VObject h1 [("type", VString "err"); ("error", u)]), S h1, l1)
  | Abrupt e => (Abrupt e, h1, l1)
  end.
Proof.
  intros O C. rewrite mapErr_run, O. destruct c as [u|e].
  - rewrite (bind_run _ (fun x => Err x) _ _ _ _ _ _ _ C (Err_run u h1)).
    now rewrite app_nil_r.
  - apply (bind_abrupt _ _ _ _ _ _ C).
Qed.

(** X5. [swap] carries [mapOk] to [mapErr]: on an outcome, swapping,
    mapping the success channel and swapping back agrees with mapping
    the failure channel (deep-equal results, or deep-equal thrown
    values), for every mapper that is a function of its argument. *)
Theorem mapErr_is_swapped_mapOk r f h :
  is_RemoteResult r -> allocation_blind f ->
  agree (result_of ((a <- swap r ;; b <- mapOk a f ;; swap b) h))
        (result_of (mapErr r f h)).
Proof.
  intros R Bf. destruct R as [_ [ref v | ref e] | ref | ref];
    try reflexivity.
  set (a := VObject h [("type", VString "ok"); ("value", e)]).
  set (r := VObject ref [("type", VString "err"); ("error", e)]).
  assert (Sw : swap r h = (Normal a, S h, [])) by reflexivity.
  rewrite (bind_quiet _ _ _ _ _ Sw).
  destruct (fn_body f [e] (S h)) as [[c2 h2] l2] eqn:G1.
  destruct (fn_body f [e] h) as [[c3 h3] l3] eqn:G2.
  pose proof (Bf [e] (S h) h) as Ag. rewrite G1, G2 in Ag. simpl in Ag.
  rewrite (mapErr_call r f h _ _ _ eq_refl (call_run _ _ _ _ _ _ G2)).
  pose proof (mapOk_call a f (S h) _ _ _ eq_refl (call_run _ _ _ _ _ _ G1))
    as L.
  destruct c2 as [u2|e2], c3 as [u3|e3]; try contradiction; simpl in L.
  - assert (Sb : swap (VObject h2 [("type", VString "ok"); ("value", u2)])
                       (S h2) =
                  (Normal (VObject (S h2) [("type", VString "err");
                                           ("error", u2)]), S (S h2), []))
      by reflexivity.
    rewrite (bind_run _ (fun b => swap b) _ _ _ _ _ _ _ L Sb).
    unfold agree, result_of, deep_equal in *. simpl in *. now rewrite Ag.
  - rewrite (bind_abrupt _ _ _ _ _ _ L). exact Ag.
Qed.

Lemma mapErr_is_swapped_mapOk_witness :
  is_RemoteResult (VObject 0 [("type", VString "err"); ("error", VNull)]) /\
  allocation_blind (wrap 2) /\
  agree
    (result_of
       ((a <- swap (VObject 0 [("type", VString "err"); ("error", VNull)]) ;;
         b <- mapOk a (wrap 2) ;; swap b) 5))
    (result_of
       (mapErr (VObject 0 [("type", VString "err"); ("error", VNull)])
               (wrap 2) 5)).
Proof.
  assert (R : is_RemoteResult
                (VObject 0 [("type", VString "err"); ("error", VNull)]))
    by apply Remote_Result, Result_Err.
  assert (B : allocation_blind (wrap 2))
    by (intros args h h'; reflexivity).
  exact (conj R (conj B (mapErr_is_swapped_mapOk _ (wrap 2) 5 R B))).
Defined.

(** X6. [bimap] is [mapOk] on an [Ok] and [mapErr] on an [Err]: the
    runs are equal, so only the mapper of the matching channel is
    called.  With two identity mappers it gives a record with the fields
    of the Result. *)
Theorem bimap_is_mapOk_or_mapErr r h :
  (forall okMapper errMapper,
     returns (isOk r None) true ->
     bimap r okMapper errMapper h = mapOk r okMapper h) /\
  (forall okMapper errMapper,
     returns (isErr r None) true ->
     bimap r okMapper errMapper h = mapErr r errMapper h) /\
  (forall k1 k2,
     is_Result r ->
     exists r', result_of (bimap r (identity k1) (identity k2) h) = Normal r' /\
                same_record r' r).
Proof.
  split; [| split].
  - intros f g O. apply isOk_returns in O.
    now rewrite bimap_run, mapOk_run, O.
  - intros f g E. apply isErr_returns in E.
    assert (T : has_tag "err" r = true) by (now apply andb_true_iff in E).
    rewrite bimap_run, mapErr_run, (other_tag_not_ok _ _ T) by discriminate.
    now rewrite E.
  - intros k1 k2 [ref v | ref e]; eexists; split; reflexivity.
Qed.

Lemma bimap_is_mapOk_or_mapErr_witness :
  (returns (isErr (VObject 0 [("type", VString "err"); ("error", VNumber 1)])
                  None) true /\
   bimap (VObject 0 [("type", VString "err"); ("error", VNumber 1)])
         (tripwire 1) (double 2) 5 =
   (Normal (VObject 5 [("type", VString "err"); ("error", VNumber 2)]), 6,
    [Called 2 [VNumber 1]])) /\
  (is_Result (VObject 0 [("type", VString "ok"); ("value", VNull)]) /\
   exists r',
     result_of (bimap (VObject 0 [("type", VString "ok"); ("value", VNull)])
                      (identity 1) (identity 2) 5) = Normal r' /\
     same_record r' (VObject 0 [("type", VString "ok"); ("value", VNull)])).
Proof.
  split.
  - assert (E : returns (isErr (VObject 0 [("type", VString "err");
                                           ("error", VNumber 1)]) None) true)
      by (intro h; reflexivity).
    split; [exact E |].
    now rewrite (proj1 (proj2 (bimap_is_mapOk_or_mapErr _ 5))
                   (tripwire 1) (double 2) E).
  - assert (R : is_Result (VObject 0 [("type", VString "ok");
                                      ("value", VNull)]))
      by apply Result_Ok.
    exact (conj R (proj2 (proj2 (bimap_is_mapOk_or_mapErr _ 5)) 1 2 R)).
Defined.

Lemma mapErr_compose r f g k h :
  allocation_blind g ->
  agree (result_of ((r1 <- mapErr r f ;; mapErr r1 g) h))
        (result_of (mapErr r (compose k g f) h)).
Proof.
  intro Bg. set (v := field "error" r).
  destruct (err_shaped r) eqn:O.
  2:{ assert (R : forall f, mapErr r f h = (Normal r, h, []))
        by (intro; now rewrite mapErr_run, O).
      rewrite (bind_quiet _ _ _ _ _ (R f)), !R. apply agree_refl. }
  destruct (fn_body f [v] h) as [[[u|e] h1] l1] eqn:F.
  - pose proof (mapErr_call r f h _ _ _ O (call_run _ _ _ _ _ _ F)) as L1.
    simpl in L1.
    destruct (fn_body g [u] (S h1)) as [[c2 h2] l2] eqn:G1.
    destruct (fn_body g [u] h1) as [[c3 h3] l3] eqn:G2.
    pose proof (Bg [u] (S h1) h1) as Ag. rewrite G1, G2 in Ag.
    assert (L2 := mapErr_call
                    (VObject h1 [("type", VString "err"); ("error", u)])
                    g (S h1) _ _ _ eq_refl (call_run _ _ _ _ _ _ G1)).
    simpl in L2.
    assert (C : call (compose k g f) [v] h =
                (c3, h3,
                 Called k [v]
                 :: (Called (fn_ref f) [v] :: l1)
                 ++ Called (fn_ref g) [u] :: l3)).
    { apply (call_run (compose k g f)). simpl.
      apply (bind_run _ _ _ _ _ _ _ _ _ (call_run _ _ _ _ _ _ F)
                      (call_run _ _ _ _ _ _ G2)). }
    rewrite (mapErr_call _ _ _ _ _ _ O C).
    unfold bind. rewrite L1, L2.
    destruct c2, c3; unfold agree, result_of, deep_equal in *; simpl in *;
      try contradiction.
    + now rewrite Ag.
    + exact Ag.
  - pose proof (mapErr_call r f h _ _ _ O (call_run _ _ _ _ _ _ F)) as L1.
    simpl in L1.
    assert (C : call (compose k g f) [v] h =
                (Abrupt e, h1,
                 Called k [v] :: Called (fn_ref f) [v] :: l1)).
    { apply (call_run (compose k g f)). simpl.
      apply (bind_abrupt _ _ _ _ _ _ (call_run _ _ _ _ _ _ F)). }
    rewrite (mapErr_call _ _ _ _ _ _ O C).
    rewrite (bind_abrupt _ _ _ _ _ _ L1). apply agree_refl.
Qed.

(** X7. [mapErr] satisfies the functor laws on the failure channel.
    Mapping [f] and then [g] agrees with mapping [x => g(f(x))] on every
    input ([g] a function of its argument); mapping [x => x] over an
    outcome gives a record with the fields of the outcome; an [Ok], a
    [Loading] and a [NotAsked] are returned themselves and the mapper is
    not called. *)
Theorem mapErr_functor_laws :
  (forall r f g k h,
     allocation_blind g ->
     agree (result_of ((r1 <- mapErr r f ;; mapErr r1 g) h))
           (result_of (mapErr r (compose k g f) h))) /\
  (forall r k h,
     is_RemoteResult r ->
     exists r', result_of (mapErr r (identity k) h) = Normal r' /\
                same_record r' r) /\
  (forall r f,
     returns (isOk r None) true \/ returns (isLoading r) true \/
     returns (isNotAsked r) true ->
     returns (mapErr r f) r).
Proof.
  split; [| split].
  - intros. now apply mapErr_compose.
  - intros r k h [_ [ref v | ref e] | ref | ref];
      eexists; split; reflexivity.
  - intros r f H h. rewrite mapErr_run.
    assert (E : err_shaped r = false); [| now rewrite E].
    destruct H as [O | W].
    + apply isOk_returns in O. now apply ok_shape_not_err.
    + now apply waiting_shape.
Qed.

Lemma mapErr_functor_laws_witness :
  (allocation_blind (wrap 2) /\
   agree
     (result_of
        ((r1 <- mapErr (VObject 0 [("type", VString "err"); ("error", VNull)])
                       (double 1) ;;
          mapErr r1 (wrap 2)) 5))
     (result_of
        (mapErr (VObject 0 [("type", VString "err"); ("error", VNull)])
                (compose 3 (wrap 2) (double 1)) 5))) /\
  (is_RemoteResult (VObject 0 [("type", VString "err"); ("error", VNull)]) /\
   exists r',
     result_of (mapErr (VObject 0 [("type", VString "err"); ("error", VNull)])
                       (identity 4) 5) = Normal r' /\
     same_record r' (VObject 0 [("type", VString "err"); ("error", VNull)])) /\
  (returns (isOk (VObject 0 [("type", VString "ok"); ("value", VNull)]) None)
           true /\
   returns (mapErr (VObject 0 [("type", VString "ok"); ("value", VNull)])
                   (tripwire 7))
           (VObject 0 [("type", VString "ok"); ("value", VNull)])).
Proof.
  pose proof mapErr_functor_laws as (Hcomp & Hid & Hpass).
  assert (B : allocation_blind (wrap 2))
    by (intros args h h'; reflexivity).
  assert (R : is_RemoteResult
                (VObject 0 [("type", VString "err"); ("error", VNull)]))
    by (apply Remote_Result, Result_Err).
  assert (O : returns (isOk (VObject 0 [("type", VString "ok");
                                        ("value", VNull)]) None) true)
    by (intro h; reflexivity).
  split; [exact (conj B (Hcomp _ (double 1) (wrap 2) 3 5 B)) |].
  split; [exact (conj R (Hid _ 4 5 R)) |].
  exact (conj O (Hpass _ (tripwire 7) (or_introl O))).
Defined.

(** X8. [flatMapErr] satisfies the monad laws on the failure channel:
    on the record [Err(e)] it runs as the call [f(e)]; with the
    constructor [Err] as the function it gives a record with the fields
    of the Result; chaining [f] then [g] gives the result (and leaves
    the allocator) of chaining [x => flatMapErr(f(x), g)]. *)
Theorem flatMapErr_monad_laws :
  (forall ref e f h,
     flatMapErr (VObject ref [("type", VString "err"); ("error", e)]) f h =
     call f [e] h) /\
  (forall r k h,
     is_Result r ->
     exists r', result_of (flatMapErr r (Err_fn k) h) = Normal r' /\
                same_record r' r) /\
  (forall r f g k h,
     fst ((r1 <- flatMapErr r f ;; flatMapErr r1 g) h) =
     fst (flatMapErr r (then_flatMapErr k f g) h)).
Proof.
  split; [| split].
  - intros ref e f h. now rewrite flatMapErr_run.
  - intros r k h [ref v | ref e]; eexists; split; reflexivity.
  - intros r f g k h. rewrite (flatMapErr_run r (then_flatMapErr k f g)).
    destruct (err_shaped r) eqn:O.
    + unfold bind at 1. rewrite flatMapErr_run, O.
      unfold then_flatMapErr, call at 2; simpl. unfold bind, arg0; simpl.
      destruct (call f [field "error" r] h) as [[[y|e] h1] l1];
        [| reflexivity].
      now destruct (flatMapErr y g h1) as [[c2 h2] l2].
    + assert (R : forall f, flatMapErr r f h = (Normal r, h, []))
        by (intro; now rewrite flatMapErr_run, O).
      now rewrite (bind_quiet _ _ _ _ _ (R f)), R.
Qed.

Lemma flatMapErr_monad_laws_witness :
  is_Result (VObject 0 [("type", VString "ok"); ("value", VString "v")]) /\
  exists r',
    result_of
      (flatMapErr (VObject 0 [("type", VString "ok"); ("value", VString "v")])
                  (Err_fn 4) 5) = Normal r' /\
    same_record r'
      (VObject 0 [("type", VString "ok"); ("value", VString "v")]).
Proof.
  assert (R : is_Result (VObject 0 [("type", VString "ok");
                                    ("value", VString "v")]))
    by apply Result_Ok.
  exact (conj R (proj1 (proj2 flatMapErr_monad_laws) _ 4 5 R)).
Defined.

(** X9. Mapping is chaining with the constructor: [mapOk(r, f)] gives
    the result, and leaves the allocator, of
    [flatMapOk(r, x => Ok(f(x)))], and [mapErr(r, f)] those of
    [flatMapErr(r, x => Err(f(x)))], on every input and for every [f].
    [mapRemote] runs exactly as [mapOk]. *)
Theorem map_is_flatMap_with_constructor r f k h :
  fst (mapOk r f h) = fst (flatMapOk r (Ok_after k f) h) /\
  fst (mapErr r f h) = fst (flatMapErr r (Err_after k f) h) /\
  mapRemote r f h = mapOk r f h.
Proof.
  split; [| split; [| reflexivity]].
  - rewrite mapOk_run, flatMapOk_run.
    destruct (ok_shaped r); [| reflexivity].
    unfold call at 2. unfold Ok_after, arg0; simpl.
    now destruct ((u <- call f [field "value" r] ;; Ok u) h) as [[c h1] l1].
  - rewrite mapErr_run, flatMapErr_run.
    destruct (err_shaped r); [| reflexivity].
    unfold call at 2. unfold Err_after, arg0; simpl.
    now destruct ((u <- call f [field "error" r] ;; Err u) h) as [[c h1] l1].
Qed.

End Channels.

(** ** The rest of the library: capturing exceptions *)

Section Capture.
Import JS Result Shape Closures.

Lemma tryCatchSync_run (f : fn jsval) h c h1 l1 :
  fn_body f [] h = (c, h1, l1) ->
  tryCatchSync f h =
  (Normal (VObject h1 match c with
                      | Normal v => [("type", VString "ok"); ("value", v)]
                      | Abrupt e => [("type", VString "err"); ("error", e)]
                      end),
   S h1, Called (fn_ref f) [] :: l1).
Proof.
  intro F. unfold tryCatchSync, try_catch, bind.
  rewrite (call_run _ _ _ _ _ _ F). destruct c as [v|e]; simpl;
    now rewrite app_nil_r.
Qed.

(** X10. [tryCatchSync] never throws: it calls the function once,
    without argument, and returns a new [Ok] holding what the function
    returned, or a new [Err] holding what the function threw. *)
Theorem tryCatchSync_captures (f : fn jsval) h :
  (forall v h1 l1,
     fn_body f [] h = (Normal v, h1, l1) ->
     tryCatchSync f h =
     (Normal (VObject h1 [("type", VString "ok"); ("value", v)]), S h1,
      Called (fn_ref f) [] :: l1)) /\
  (forall e h1 l1,
     fn_body f [] h = (Abrupt e, h1, l1) ->
     tryCatchSync f h =
     (Normal (VObject h1 [("type", VString "err"); ("error", e)]), S h1,
      Called (fn_ref f) [] :: l1)) /\
  (exists r, result_of (tryCatchSync f h) = Normal r /\ is_Result r).
Proof.
  split; [| split].
  - intros v h1 l1 F. apply (tryCatchSync_run f h _ _ _ F).
  - intros e h1 l1 F. apply (tryCatchSync_run f h _ _ _ F).
  - destruct (fn_body f [] h) as [[[v|e] h1] l1] eqn:F;
      rewrite (tryCatchSync_run f h _ _ _ F); eexists;
      (split; [reflexivity | constructor]).
Qed.

Lemma tryCatchSync_captures_witness :
  tryCatchSync (tripwire 3) 5 =
  (Normal (VObject 5 [("type", VString "err"); ("error", VString "called")]),
   6, [Called 3 []]) /\
  tryCatchSync (constant 3 (VNumber 5)) 5 =
  (Normal (VObject 5 [("type", VString "ok"); ("value", VNumber 5)]),
   6, [Called 3 []]).
Proof.
  split.
  - apply (proj1 (proj2 (tryCatchSync_captures (tripwire 3) 5))).
    reflexivity.
  - apply (proj1 (tryCatchSync_captures (constant 3 (VNumber 5)) 5)).
    reflexivity.
Defined.

(** X11. [tryCatchSync] and [unwrap].  Capturing [() => unwrap(r)] gives
    back an [Ok] with the fields of [r] when [r] is an [Ok], and
    otherwise an [Err] holding the [Error] that [unwrap] threw.
    Unwrapping what [tryCatchSync] captured returns what the function
    returned; when the function threw, it throws a new [Error], not the
    value the function threw. *)
Theorem tryCatchSync_unwrap r k h :
  (forall ref v,
     r = VObject ref [("type", VString "ok"); ("value", v)] ->
     exists r', result_of (tryCatchSync (unwrap_of k r) h) = Normal r' /\
                same_record r' r) /\
  (returns (isOk r None) false ->
   result_of (tryCatchSync (unwrap_of k r) h) =
   Normal (VObject (S h)
             [("type", VString "err");
              ("error",
               VObject h [("name", VString "Error");
                          ("message",
                           VString "Tried to unwrap a non-ok result")])])) /\
  (forall (f : fn jsval) v h1 l1,
     fn_body f [] h = (Normal v, h1, l1) ->
     result_of ((c <- tryCatchSync f ;; unwrap c) h) = Normal v) /\
  (forall (f : fn jsval) e h1 l1,
     fn_body f [] h = (Abrupt e, h1, l1) ->
     result_of ((c <- tryCatchSync f ;; unwrap c) h) =
     Abrupt (VObject (S h1)
               [("name", VString "Error");
                ("message", VString "Tried to unwrap a non-ok result")])).
Proof.
  split; [| split; [| split]].
  - intros ref v ->. eexists. split; reflexivity.
  - intro N. apply isOk_returns in N.
    assert (F : fn_body (unwrap_of k r) [] h =
                throw_new_Error "Tried to unwrap a non-ok result" h)
      by (simpl; now rewrite unwrap_run, N).
    now rewrite (tryCatchSync_run _ h _ _ _ F).
  - intros f v h1 l1 F.
    now rewrite (bind_run _ (fun c => unwrap c) _ _ _ _ _ _ _
                   (tryCatchSync_run f h _ _ _ F) eq_refl).
  - intros f e h1 l1 F.
    now rewrite (bind_run _ (fun c => unwrap c) _ _ _ _ _ _ _
                   (tryCatchSync_run f h _ _ _ F) eq_refl).
Qed.

Lemma tryCatchSync_unwrap_witness :
  (returns (isOk (VObject 0 [("type", VString "loading")]) None) false /\
   result_of (tryCatchSync (unwrap_of 3 (VObject 0 [("type", VString "loading")]))
                           5) =
   Normal (VObject 6
             [("type", VString "err");
              ("error",
               VObject 5 [("name", VString "Error");
                          ("message",
                           VString "Tried to unwrap a non-ok result")])])) /\
  result_of ((c <- tryCatchSync (tripwire 3) ;; unwrap c) 5) =
  Abrupt (VObject 6
            [("name", VString "Error");
             ("message", VString "Tried to unwrap a non-ok result")]).
Proof.
  split.
  - assert (N : returns (isOk (VObject 0 [("type", VString "loading")]) None)
                        false)
      by (intro h; reflexivity).
    exact (conj N (proj1 (proj2 (tryCatchSync_unwrap _ 3 5)) N)).
  - apply (proj2 (proj2 (proj2 (tryCatchSync_unwrap VNull 0 5)))
             (tripwire 3) (VString "called") 5 []).
    reflexivity.
Defined.






End Capture.

(** ** The rest of the library: adapters, defaults and identity *)

Section Defaults.
Import JS Result Shape Closures.

(** X14. [fromUndefined] gives [Err(e)] exactly on [undefined].  It
    runs as [fromNullable] on every value but [null], which it keeps as
    [Ok(null)] where [fromNullable] gives [Err(e)]. *)
Theorem fromUndefined_keeps_null :
  (forall v e h, fromUndefined v e h = Err e h <-> v = VUndefined) /\
  (forall v e h, fromUndefined v e h = Ok v h <-> v <> VUndefined) /\
  (forall v e h, fromUndefined v e h = fromNullable v e h <-> v <> VNull).
Proof.
  split; [| split]; intros v e h; unfold fromUndefined, fromNullable;
    destruct v; simpl; split; intro H;
    try reflexivity; try discriminate; try congruence.
Qed.

Lemma fromUndefined_keeps_null_witness :
  fromUndefined VNull (VString "e") 0 = Ok VNull 0 /\
  fromUndefined (VNumber 0) (VString "e") 0
  = fromNullable (VNumber 0) (VString "e") 0.
Proof.
  pose proof fromUndefined_keeps_null as (_ & Hok & Hsame).
  split.
  - apply Hok. discriminate.
  - apply Hsame. discriminate.
Defined.

(** X15. An adapter followed by a default is the host's defaulting
    operator, and the error given to the adapter plays no part:
    [unwrapOr(fromNullable(v, e), d)] and
    [unwrapOr(fromNullish(v, e), d)] return [v ?? d],
    [getOrElse(fromFalsy(v, e), d)] returns [v || d], and
    [unwrapOr(fromUndefined(v, e), d)] returns [d] for [undefined] and
    [v] otherwise. *)
Theorem adapter_then_default v e d h :
  result_of ((r <- fromNullable v e ;; unwrapOr r d) h) =
    Normal (if loose_eq_null v then d else v) /\
  result_of ((r <- fromNullish v e ;; unwrapOr r d) h) =
    Normal (if loose_eq_null v then d else v) /\
  result_of ((r <- fromFalsy v e ;; getOrElse r d) h) =
    Normal (if ToBoolean v then v else d) /\
  result_of ((r <- fromUndefined v e ;; unwrapOr r d) h) =
    Normal (if strict_eq v VUndefined then d else v).
Proof.
  unfold fromNullable, fromNullish, fromFalsy, fromUndefined.
  split; [| split; [| split]].
  - now destruct (loose_eq_null v).
  - now destruct (loose_eq_null v).
  - now destruct (ToBoolean v).
  - now destruct (strict_eq v VUndefined).
Qed.

Lemma strict_eq_refl v : strict_eq v v = negb (is_NaN v).
Proof.
  destruct v; simpl; try reflexivity.
  - now destruct b.
  - unfold PrimFloat.is_nan. now rewrite negb_involutive.
  - apply Z.eqb_refl.
  - apply String.eqb_refl.
  - apply Nat.eqb_refl.
  - apply Nat.eqb_refl.
  - apply Nat.eqb_refl.
Qed.

(** X16. Without a comparator [equals] is reflexive except on [NaN]:
    for a value [a] that [isRemoteResult] accepts, [equals(a, a)] is
    [true] unless [a] is an [Ok] or an [Err] whose payload is the number
    [NaN], where it is [false]. *)
Theorem equals_reflexive_except_NaN a :
  (returns (isOk a None) true ->
   returns (equals a a None) (negb (is_NaN (field "value" a)))) /\
  (returns (isErr a None) true ->
   returns (equals a a None) (negb (is_NaN (field "error" a)))) /\
  (returns (isLoading a) true \/ returns (isNotAsked a) true ->
   returns (equals a a None) true).
Proof.
  assert (Same : forall tag h,
             has_tag tag a = true -> remote_shaped a = true ->
             equals a a None h =
             if ok_shaped a
             then (Normal (negb (is_NaN (field "value" a))), h, [])
             else if err_shaped a
             then (Normal (negb (is_NaN (field "error" a))), h, [])
             else (Normal true, h, [])).
  { intros tag h T R. rewrite (equals_same_tag a a None h tag T T R R).
    rewrite !andb_diag.
    rewrite !(compare_field_run None a a _ h R R), !strict_eq_refl.
    reflexivity. }
  split; [| split].
  - intros O h. apply isOk_returns in O.
    rewrite (Same "ok" h), O; trivial.
    + now apply andb_true_iff in O.
    + rewrite O. now rewrite !orb_true_r.
  - intros E h. apply isErr_returns in E.
    assert (T : has_tag "err" a = true) by (now apply andb_true_iff in E).
    rewrite (Same "err" h T), (other_tag_not_ok _ _ T), ?E; trivial;
      try discriminate.
    rewrite E. now rewrite !orb_true_r.
  - intros W h. destruct (waiting_shape a W) as [O E].
    destruct W as [L|N].
    + apply isLoading_returns in L.
      rewrite (Same "loading" h L), O, E; trivial. now rewrite L.
    + apply isNotAsked_returns in N.
      rewrite (Same "not-asked" h N), O, E; trivial.
      rewrite N. now rewrite !orb_true_r.
Qed.

Lemma equals_reflexive_except_NaN_witness :
  (returns (isOk (VObject 0 [("type", VString "ok"); ("value", VNumber NaN)])
                 None) true /\
   returns (equals (VObject 0 [("type", VString "ok"); ("value", VNumber NaN)])
                   (VObject 0 [("type", VString "ok"); ("value", VNumber NaN)])
                   None) false) /\
  (returns (isErr (VObject 0 [("type", VString "err");
                              ("error", VObject 1 [])]) None) true /\
   returns (equals (VObject 0 [("type", VString "err");
                               ("error", VObject 1 [])])
                   (VObject 0 [("type", VString "err");
                               ("error", VObject 1 [])])
                   None) true).
Proof.
  split.
  - assert (O : returns (isOk (VObject 0 [("type", VString "ok");
                                          ("value", VNumber NaN)]) None) true)
      by (intro h; reflexivity).
    exact (conj O (proj1 (equals_reflexive_except_NaN _) O)).
  - assert (E : returns (isErr (VObject 0 [("type", VString "err");
                                           ("error", VObject 1 [])]) None)
                        true)
      by (intro h; reflexivity).
    exact (conj E (proj1 (proj2 (equals_reflexive_except_NaN _)) E)).
Defined.

(** X17. The four guards are exclusive on every value, not only on
    constructed ones: at most one of [isOk], [isErr], [isLoading] and
    [isNotAsked] returns [true]; [isResult] returns [true] exactly when
    one of the first two does, and [isRemoteResult] exactly when one of
    the four does. *)
Theorem guards_are_exclusive v :
  exists a b c d,
    returns (isOk v None) a /\ returns (isErr v None) b /\
    returns (isLoading v) c /\ returns (isNotAsked v) d /\
    length (filter (fun x : bool => x) [a; b; c; d]) <= 1 /\
    returns (isResult v None None) (a || b) /\
    returns (isRemoteResult v None None) (a || b || c || d).
Proof.
  exists (ok_shaped v), (err_shaped v),
         (has_tag "loading" v), (has_tag "not-asked" v).
  split; [intro h; apply isOk_None |].
  split; [intro h; apply isErr_None |].
  split; [intro h; apply isLoading_run |].
  split; [intro h; apply isNotAsked_run |].
  split; [| split].
  - destruct (has_tag "ok" v) eqn:A, (has_tag "err" v) eqn:B,
      (has_tag "loading" v) eqn:C, (has_tag "not-asked" v) eqn:D;
      try discriminate (has_tag_functional _ _ _ A B);
      try discriminate (has_tag_functional _ _ _ A C);
      try discriminate (has_tag_functional _ _ _ A D);
      try discriminate (has_tag_functional _ _ _ B C);
      try discriminate (has_tag_functional _ _ _ B D);
      try discriminate (has_tag_functional _ _ _ C D);
      destruct (has_field "value" v), (has_field "error" v); simpl; lia.
  - intro h. apply isResult_None.
  - intro h. rewrite isRemoteResult_None.
    now destruct (ok_shaped v), (err_shaped v),
      (has_tag "loading" v), (has_tag "not-asked" v).
Qed.

(** X18. A constructed value and the guards with a validator: on
    [Ok(v)], [isOk] and [isRemoteSuccess] are the verdict of the
    validator on [v], called once, and [isErr] and [isRemoteFailure] are
    [false] without a call; symmetrically on [Err(e)]. *)
Theorem constructed_then_validated v f h :
  (r <- Ok v ;; isOk r (Some f)) h = (_ <- Ok v ;; call f [v]) h /\
  (r <- Ok v ;; isRemoteSuccess r (Some f)) h = (_ <- Ok v ;; call f [v]) h /\
  (r <- Ok v ;; isErr r (Some f)) h = (_ <- Ok v ;; ret false) h /\
  (r <- Ok v ;; isRemoteFailure r (Some f)) h = (_ <- Ok v ;; ret false) h /\
  (r <- Err v ;; isErr r (Some f)) h = (_ <- Err v ;; call f [v]) h /\
  (r <- Err v ;; isRemoteFailure r (Some f)) h
    = (_ <- Err v ;; call f [v]) h /\
  (r <- Err v ;; isOk r (Some f)) h = (_ <- Err v ;; ret false) h /\
  (r <- Err v ;; isRemoteSuccess r (Some f)) h = (_ <- Err v ;; ret false) h.
Proof.
  unfold isRemoteSuccess, isRemoteFailure.
  rewrite !(bind_quiet _ _ _ _ _ (Ok_run v h)),
          !(bind_quiet _ _ _ _ _ (Err_run v h)).
  rewrite !isOk_Some, !isErr_Some. repeat split.
Qed.

(** X19. [unwrap] inverts [Ok], and where it does not throw it runs as
    [unwrapOr] with any default: on a value that [isOk] accepts both
    return the [value] field, calling nothing. *)
Theorem unwrap_inverts_Ok :
  (forall v h, (r <- Ok v ;; unwrap r) h = (Normal v, S h, [])) /\
  (forall r d h,
     returns (isOk r None) true ->
     unwrap r h = unwrapOr r d h /\
     unwrap r h = (Normal (field "value" r), h, [])).
Proof.
  split.
  - intros v h. now rewrite (bind_quiet _ _ _ _ _ (Ok_run v h)).
  - intros r d h O. apply isOk_returns in O.
    now rewrite unwrap_run, unwrapOr_run, O.
Qed.

Lemma unwrap_inverts_Ok_witness :
  returns (isOk (VObject 0 [("type", VString "ok"); ("value", VNumber 1);
                            ("extra", VNull)]) None) true /\
  unwrap (VObject 0 [("type", VString "ok"); ("value", VNumber 1);
                     ("extra", VNull)]) 5 = (Normal (VNumber 1), 5, []).
Proof.
  assert (O : returns (isOk (VObject 0 [("type", VString "ok");
                                        ("value", VNumber 1);
                                        ("extra", VNull)]) None) true)
    by (intro h; reflexivity).
  split; [exact O |].
  now rewrite (proj2 (proj2 unwrap_inverts_Ok _ VNull 5 O)).
Defined.

End Defaults.

(** ** The rest of the library: further compositions *)

Section Compositions.
Import JS Result Shape Closures SwapCases.

(** X20. On a value that [isResult] accepts, [bimap] runs exactly as
    [mapOk] followed by [mapErr] (same result, allocations and calls).
    On a [Loading] and on a [NotAsked] the two differ: [bimap] throws,
    the composition returns its input. *)
Theorem bimap_is_mapOk_then_mapErr r f g h :
  (returns (isResult r None None) true ->
   bimap r f g h = (a <- mapOk r f ;; mapErr a g) h) /\
  (returns (isLoading r) true \/ returns (isNotAsked r) true ->
   (a <- mapOk r f ;; mapErr a g) h = (Normal r, h, []) /\
   exists e, result_of (bimap r f g h) = Abrupt e).
Proof.
  split.
  - intro R. apply isResult_returns in R. rewrite bimap_run.
    destruct (ok_shaped r) eqn:O.
    + destruct (call f [field "value" r] h) as [[[u|e] h1] l1] eqn:C.
      * rewrite (bind_run _ (fun a => mapErr a g) _ _ _ _ _ _ _
                   (mapOk_call r f h _ _ _ O C) eq_refl).
        rewrite (bind_run _ (fun u => Ok u) _ _ _ _ _ _ _ C (Ok_run u h1)).
        now rewrite !app_nil_r.
      * rewrite (bind_abrupt _ _ _ _ _ _ (mapOk_call r f h _ _ _ O C)).
        apply (bind_abrupt _ _ _ _ _ _ C).
    + destruct (err_shaped r) eqn:E; [| discriminate R].
      assert (P : mapOk r f h = (Normal r, h, []))
        by (now rewrite mapOk_run, O).
      now rewrite (bind_quiet _ _ _ _ _ P), mapErr_run, E.
  - intro W. apply waiting_shape in W as [O E]. split.
    + assert (P : mapOk r f h = (Normal r, h, []))
        by (now rewrite mapOk_run, O).
      now rewrite (bind_quiet _ _ _ _ _ P), mapErr_run, E.
    + rewrite bimap_run, O, E. now eexists.
Qed.

Lemma bimap_is_mapOk_then_mapErr_witness :
  (returns (isResult (VObject 0 [("type", VString "ok"); ("value", VNumber 1)])
                     None None) true /\
   bimap (VObject 0 [("type", VString "ok"); ("value", VNumber 1)])
         (double 1) (tripwire 2) 5 =
   (a <- mapOk (VObject 0 [("type", VString "ok"); ("value", VNumber 1)])
               (double 1) ;;
    mapErr a (tripwire 2)) 5) /\
  (returns (isLoading (VObject 0 [("type", VString "loading")])) true /\
   (a <- mapOk (VObject 0 [("type", VString "loading")]) (double 1) ;;
    mapErr a (double 2)) 5 =
   (Normal (VObject 0 [("type", VString "loading")]), 5, [])).
Proof.
  split.
  - assert (R : returns (isResult (VObject 0 [("type", VString "ok");
                                              ("value", VNumber 1)])
                                  None None) true)
      by (intro h; reflexivity).
    exact (conj R (proj1 (bimap_is_mapOk_then_mapErr _ (double 1) (tripwire 2)
                            5) R)).
  - assert (L : returns (isLoading (VObject 0 [("type", VString "loading")]))
                        true)
      by (intro h; reflexivity).
    exact (conj L (proj1 (proj2 (bimap_is_mapOk_then_mapErr _ (double 1)
                                   (double 2) 5) (or_introl L)))).
Defined.


Lemma equals_None_run a b h :
  equals a b None h =
  (Normal
     (remote_shaped a && remote_shaped b &&
      strict_eq (field "type" a) (field "type" b) &&
      (if ok_shaped a && ok_shaped b
       then strict_eq (field "value" a) (field "value" b)
       else if err_shaped a && err_shaped b
       then strict_eq (field "error" a) (field "error" b)
       else true)), h, []).
Proof.
  rewrite equals_run.
  destruct (remote_shaped a) eqn:Ra; [| reflexivity].
  destruct (remote_shaped b) eqn:Rb; [| reflexivity].
  cbn [negb orb andb].
  destruct (strict_eq (field "type" a) (field "type" b)); [| reflexivity].
  cbn [negb andb].
  rewrite !(compare_field_run None a b _ h Ra Rb).
  now destruct (ok_shaped a && ok_shaped b), (err_shaped a && err_shaped b).
Qed.

Lemma swap_cases v h : swap_case v h.
Proof.
  destruct (ok_shaped v) eqn:O.
  { pose proof (ok_shape_not_err _ O) as E.
    apply case_ok; trivial.
    - apply andb_true_iff in O as [T _]. now apply has_tag_field.
    - now rewrite swap_run, O. }
  destruct (err_shaped v) eqn:E.
  { apply case_err; trivial.
    - apply andb_true_iff in E as [T _]. now apply has_tag_field.
    - now rewrite swap_run, O, E. }
  assert (S0 : swap v h = (Normal v, h, [])) by (now rewrite swap_run, O, E).
  destruct (has_tag "loading" v) eqn:L.
  { apply (case_waiting v h "loading"); trivial; try discriminate.
    - now rewrite L.
    - now apply has_tag_field. }
  destruct (has_tag "not-asked" v) eqn:N.
  { apply (case_waiting v h "not-asked"); trivial; try discriminate.
    - now rewrite L, N.
    - now apply has_tag_field. }
  apply case_none; trivial. now rewrite L, N.
Qed.

Lemma strict_eq_strings s t : strict_eq (VString s) (VString t) = String.eqb s t.
Proof. reflexivity. Qed.

(** X21. [equals] without a comparator does not see [swap]: for every
    two values, comparing the swapped values gives what comparing the
    values gives. *)
Theorem equals_commutes_with_swap a b h :
  result_of ((a' <- swap a ;; b' <- swap b ;; equals a' b' None) h) =
  result_of (equals a b None h).
Proof.
  destruct (swap_cases a h) as [Oa Ea Ta Sa | Oa Ea Ta Sa
                               | ta Oa Ea Wa Ta N1a N2a Sa | Oa Ea Wa Sa];
    rewrite (bind_quiet _ _ _ _ _ Sa);
    match type of Sa with
    | swap _ _ = (_, ?h1, _) =>
        destruct (swap_cases b h1) as [Ob Eb Tb Sb | Ob Eb Tb Sb
                                      | tb Ob Eb Wb Tb N1b N2b Sb
                                      | Ob Eb Wb Sb]
    end;
    rewrite (bind_quiet _ _ _ _ _ Sb), !equals_None_run;
    unfold result_of; cbn [fst]; f_equal.
  all: cbn [has_tag has_field field lookup String.eqb Ascii.eqb Bool.eqb].
  all: repeat match goal with
       | N : ?t <> ?s |- _ =>
           let Hn := fresh "Hn" in let Hm := fresh "Hm" in
           assert (Hn : String.eqb t s = false) by (now apply String.eqb_neq);
           assert (Hm : String.eqb s t = false)
             by (apply String.eqb_neq; congruence);
           clear N
       end.
  all: rewrite ?Oa, ?Ea, ?Ob, ?Eb, ?Wa, ?Wb, ?Ta, ?Tb, ?strict_eq_strings.
  all: rewrite ?Hn, ?Hm, ?Hn0, ?Hm0, ?Hn1, ?Hm1, ?Hn2, ?Hm2, ?orb_true_r.
  all: cbn [strict_eq andb orb String.eqb Ascii.eqb Bool.eqb].
  all: rewrite ?andb_true_r, ?andb_false_r.
  all: reflexivity.
Qed.

End Compositions.
